(** * labml.analytics: the analytics facade over the run cache

    A shallow embedding of [labml/analytics/__init__.py].  The facade
    functions ([runs], [get_run], [get_data], [_get_series], [distribution],
    [scatter], [indicator_data], [_get_artifacts], [artifact_data]) are
    translated from the Python source.  The modules they import
    ([labml.internal.analytics.cache], [...indicators], [...altair]) are not
    part of the sources at hand: the run cache and the collection algebra are
    modelled from the specification, the two chart renderers and the backing
    store are parameters. *)

From stdpp Require Import base option list strings pretty gmap.

(** ** Python exceptions raised on the paths modelled here *)

Inductive exn : Type :=
| ValueError (msg : string)
| TypeError (msg : string)
| IndexError (msg : string)
| LookupError (msg : string).

Inductive Result (A : Type) : Type :=
| Ok (a : A)
| Raise (e : exn).
Arguments Ok {A} a.
Arguments Raise {A} e.

(** ** Indicators and indicator collections *)

Inductive IndicatorKind : Type := SeriesKind | ArtifactKind.

Record Indicator : Type := mkIndicator {
  key : string;
  run_uuid : string;
  kind : IndicatorKind
}.

(** Two indicators are the same entity iff they share run id and key. *)
Definition ind_id (i : Indicator) : string * string := (run_uuid i, key i).

Definition present (x : Indicator) (l : list Indicator) : Prop :=
  ind_id x ∈ ind_id <$> l.

Global Instance present_dec x l : Decision (present x l).
Proof. unfold present. apply _. Defined.

Record IndicatorCollection : Type := mkCollection {
  _indicators : list Indicator
}.

(** The class invariant: no two elements share run id and key. *)
Definition wf (c : IndicatorCollection) : Prop :=
  NoDup (ind_id <$> _indicators c).

Global Instance wf_dec c : Decision (wf c).
Proof. unfold wf. apply _. Defined.

Definition disjoint (a b : IndicatorCollection) : Prop :=
  ∀ x, x ∈ _indicators b → ¬ present x (_indicators a).

(** Append every element of [other] that is not yet present, in order. *)
Fixpoint extend (acc other : list Indicator) : list Indicator :=
  match other with
  | [] => acc
  | x :: rest =>
      if decide (present x acc) then extend acc rest
      else extend (acc ++ [x]) rest
  end.

(** Modelled from the spec: the constructor of
    [labml.internal.analytics.indicators.IndicatorCollection], which is not
    among the sources: "construction from a sequence of Indicators,
    deduplicating by (run id, key) while preserving first-seen order". *)
Definition collection_of (l : list Indicator) : IndicatorCollection :=
  mkCollection (extend [] l).

(** Modelled from the spec: [IndicatorCollection.__add__], not among the
    sources: "returns a new collection containing self's elements followed by
    any of other's elements not already present". *)
Definition __add__ (self other : IndicatorCollection) : IndicatorCollection :=
  collection_of (_indicators self ++ _indicators other).

(** Modelled from the spec: [IndicatorCollection.__radd__], not among the
    sources: addition "handles the degenerate case where one operand is the
    sentinel empty/None starting accumulator". *)
Definition __radd__ (self : IndicatorCollection) (other : option IndicatorCollection)
  : IndicatorCollection :=
  match other with
  | None => collection_of (_indicators self)
  | Some o => __add__ o self
  end.

(** Python's [a + b] where [a] is [None] or a collection: [None] has no
    [__add__] for a collection, so the reflected method of [b] runs. *)
Definition py_plus (a : option IndicatorCollection) (b : IndicatorCollection)
  : IndicatorCollection :=
  match a with
  | Some c => __add__ c b
  | None => __radd__ b None
  end.

(** ** Series payloads: dense [T, C] arrays *)

Record ndarray (V : Type) : Type := mkArray {
  ncols : nat;
  rows : list (list V)
}.
Arguments mkArray {V} ncols rows.
Arguments ncols {V} _.
Arguments rows {V} _.

Definition shape {V} (d : ndarray V) : nat * nat := (length (rows d), ncols d).

Definition well_shaped {V} (d : ndarray V) : Prop :=
  Forall (λ r, length r = ncols d) (rows d).

(** Histogram format: [T, 10], column 0 the global step, columns 1..9 the
    values at the nine basis points. *)
Definition histogram_format {V} (d : ndarray V) : Prop :=
  ncols d = 10 ∧ well_shaped d.

(** The basis points, in hundredths of a percent, of columns 1..9. *)
Definition basis_points : list Z :=
  [0; 668; 1587; 3085; 5000; 6915; 8413; 9332; 10000]%Z.

Definition basis_point_of_column (c : nat) : option Z :=
  match c with
  | 0 => None
  | S j => basis_points !! j
  end.

(** The text of numpy's [IndexError] for an index list on the second axis:
    it names the first index that is out of bounds and the size of the
    axis. *)
Definition out_of_bounds_message (cols : list nat) (size : nat) : string :=
  match list_find (λ c, size ≤ c) cols with
  | Some (_, c) =>
      "index " +:+ pretty c +:+ " is out of bounds for axis 1 with size "
      +:+ pretty size
  | None => "index is out of bounds for axis 1"
  end.

(** [d[:, cols]] with an index list: every index is checked against the
    second axis, also when the array has no rows. *)
Definition select_columns {V} (cols : list nat) (d : ndarray V)
  : Result (ndarray V) :=
  if decide (Forall (λ c, c < ncols d) cols) then
    match mapM (λ r : list V, mapM (λ c, r !! c) cols) (rows d) with
    | Some rs => Ok (mkArray (length cols) rs)
    | None => Raise (IndexError "index is out of bounds for axis 1")
    end
  else Raise (IndexError (out_of_bounds_message cols (ncols d))).

(** [d[:, [0, 5]]] where [d] may be [None]. *)
Definition subscript_0_5 {V} (d : option (ndarray V)) : Result (ndarray V) :=
  match d with
  | None => Raise (TypeError "'NoneType' object is not subscriptable")
  | Some a => select_columns [0; 5] a
  end.

(** [l[0]] *)
Definition py_index0 {A} (l : list A) : Result A :=
  match l !! 0 with
  | Some a => Ok a
  | None => Raise (IndexError "list index out of range")
  end.

(** ** A small backing store used in the examples

    Run [run-A] logged [train_loss] and [valid_loss] as histograms and an
    [image] artifact; run [run-B] logged [train_loss] only. *)

Module Demo.

Definition train_loss_A : Indicator :=
  mkIndicator "train_loss" "run-A" SeriesKind.
Definition valid_loss_A : Indicator :=
  mkIndicator "valid_loss" "run-A" SeriesKind.
Definition image_A : Indicator := mkIndicator "image" "run-A" ArtifactKind.
Definition train_loss_B : Indicator :=
  mkIndicator "train_loss" "run-B" SeriesKind.

Definition hist (base : Z) : ndarray Z :=
  mkArray 10
    [ [0; base; base + 1; base + 2; base + 3; base + 4; base + 5; base + 6;
       base + 7; base + 8]%Z;
      [1; base + 10; base + 11; base + 12; base + 13; base + 14; base + 15;
       base + 16; base + 17; base + 18]%Z ].

Definition store_indicators (u : string) : option (list Indicator) :=
  if decide (u = "run-A") then Some [train_loss_A; valid_loss_A; image_A]
  else if decide (u = "run-B") then Some [train_loss_B]
  else None.

Definition store_series (u k : string) : option (ndarray Z) :=
  if decide (u = "run-A" ∧ k = "train_loss") then Some (hist 100)
  else if decide (u = "run-A" ∧ k = "valid_loss") then Some (hist 200)
  else if decide (u = "run-B" ∧ k = "train_loss") then Some (hist 300)
  else None.

Definition store_artifact (u k : string) : option string :=
  if decide (u = "run-A" ∧ k = "image") then Some "png" else None.

Definition losses_A : IndicatorCollection :=
  mkCollection [train_loss_A; valid_loss_A].
Definition train_losses : IndicatorCollection :=
  mkCollection [train_loss_A; train_loss_B].
Definition only_B : IndicatorCollection := mkCollection [train_loss_B].
Definition only_image : IndicatorCollection := mkCollection [image_A].
Definition loss_and_image : IndicatorCollection :=
  mkCollection [train_loss_A; image_A].

End Demo.

(** The same store with one more series for run [run-A]: a learning rate
    logged as a three-column array. *)

Module DemoNarrow.

Definition lr_A : Indicator := mkIndicator "lr" "run-A" SeriesKind.

Definition store_series (u k : string) : option (ndarray Z) :=
  if decide (u = "run-A" ∧ k = "lr")
  then Some (mkArray 3 [[0; 1; 2]; [1; 3; 4]]%Z)
  else Demo.store_series u k.

End DemoNarrow.

(** Discharges "every indicator of this explicit list has a histogram
    payload" by running the cache lookup on each element. *)
Ltac demo_payloads :=
  let i := fresh "i" in
  let Hin := fresh "Hin" in
  intros i Hin;
  repeat (apply elem_of_cons in Hin as [->|Hin]);
  [ eexists; split; [vm_compute; reflexivity|];
    split; [reflexivity|repeat constructor] ..
  | by apply elem_of_nil in Hin ].

(** The same for payloads with at least six columns. *)
Ltac demo_wide :=
  let i := fresh "i" in
  let Hin := fresh "Hin" in
  intros i Hin;
  repeat (apply elem_of_cons in Hin as [->|Hin]);
  [ eexists; split; [vm_compute; reflexivity|];
    split; [simpl; lia|repeat constructor] ..
  | by apply elem_of_nil in Hin ].

(** ** The process state and the facade *)

Section Analytics.

(** Array entries, artifact payloads, display parameters and charts are
    opaque to the facade. *)
Context {V Art Num Chart : Type}.

(** The backing store: "list indicators for run id", "fetch series payload
    for (run id, key)", "fetch artifact payload for (run id, key)". *)
Variable store_indicators : string → option (list Indicator).
Variable store_series : string → string → option (ndarray V).
Variable store_artifact : string → string → option Art.

Record DensityArgs : Type := mkDensityArgs {
  d_series : list (ndarray V);
  d_names : list string;
  d_levels : Num;
  d_alpha : Num;
  d_width : Num;
  d_height : Num;
  d_height_minimap : Num
}.

Record ScatterArgs : Type := mkScatterArgs {
  s_series : list (ndarray V);
  s_x : ndarray V;
  s_names : list string;
  s_x_name : string;
  s_width : Num;
  s_height : Num;
  s_height_minimap : Num;
  s_noise : option (Num * Num)
}.

(** The external renderers, [_density.render_density_minimap_multiple] and
    [_scatter.scatter]. *)
Variable render_density_minimap_multiple : DensityArgs → Chart.
Variable render_scatter : ScatterArgs → Chart.

(** A [Run] object; [obj_id] is its identity (what Python's [is] compares). *)
Record Run : Type := mkRun {
  obj_id : nat;
  uuid : string;
  indicators : IndicatorCollection
}.

Inductive Event : Type :=
| StoreListIndicators (u : string)
| StoreFetchSeries (u k : string)
| StoreFetchArtifact (u k : string)
| CacheGetIndicatorData (ind : Indicator)
| CacheGetArtifactData (ind : Indicator)
| RenderDensity (a : DensityArgs)
| RenderScatter (a : ScatterArgs).

Record World : Type := mkWorld {
  w_runs : gmap string Run;
  w_series : gmap (string * string) (option (ndarray V));
  w_artifacts : gmap (string * string) (option Art);
  w_next_id : nat;
  w_trace : list Event
}.

(** The state of a fresh process: empty caches, nothing observed. *)
Definition init_world : World := mkWorld ∅ ∅ ∅ 0 [].

Definition log (e : Event) (w : World) : World :=
  mkWorld (w_runs w) (w_series w) (w_artifacts w) (w_next_id w)
          (w_trace w ++ [e]).

(** Computations that read and update the process state and may raise. *)
Definition M (A : Type) : Type := World → Result A * World.

Definition ret {A} (a : A) : M A := λ w, (Ok a, w).
Definition raise {A} (e : exn) : M A := λ w, (Raise e, w).
Definition bind {A B} (m : M A) (k : A → M B) : M B :=
  λ w, match m w with
       | (Ok a, w') => k a w'
       | (Raise e, w') => (Raise e, w')
       end.
Definition lift {A} (r : Result A) : M A := λ w, (r, w).

Notation "'let*' x ':=' m 'in' k" := (bind m (λ x, k))
  (at level 10, x name, m at level 100, k at level 200).

(** *** The run cache *)

(** Modelled from the spec: [cache.get_run], not among the sources:
    "returns the cached Run for identifier, constructing and caching it on
    first call ... fails with a LookupError-class error if the identifier
    does not correspond to any known run in the backing store". *)
Definition cache_get_run (u : string) : M Run :=
  λ w, match w_runs w !! u with
       | Some r => (Ok r, w)
       | None =>
           let w1 := log (StoreListIndicators u) w in
           match store_indicators u with
           | None => (Raise (LookupError u), w1)
           | Some inds =>
               let r := mkRun (w_next_id w1) u (collection_of inds) in
               (Ok r, mkWorld (<[u := r]> (w_runs w1)) (w_series w1)
                              (w_artifacts w1) (S (w_next_id w1))
                              (w_trace w1))
           end
       end.

(** Modelled from the spec: [cache.get_indicator_data], not among the
    sources: "returns the memoized series for an indicator, fetching and
    caching it from the backing store on first access; returns None (rather
    than raising) when the indicator has no numeric series"; the cache is
    "keyed by (run id, key)". *)
Definition cache_get_indicator_data (ind : Indicator)
  : M (option (ndarray V)) :=
  λ w, let w0 := log (CacheGetIndicatorData ind) w in
       match w_series w0 !! ind_id ind with
       | Some d => (Ok d, w0)
       | None =>
           let w1 := log (StoreFetchSeries (run_uuid ind) (key ind)) w0 in
           let d := store_series (run_uuid ind) (key ind) in
           (Ok d, mkWorld (w_runs w1) (<[ind_id ind := d]> (w_series w1))
                          (w_artifacts w1) (w_next_id w1) (w_trace w1))
       end.

(** Modelled from the spec: [cache.get_artifact_data], not among the
    sources: "same contract as above but for non-series, one-off artifact
    payloads; returns None when absent". *)
Definition cache_get_artifact_data (ind : Indicator) : M (option Art) :=
  λ w, let w0 := log (CacheGetArtifactData ind) w in
       match w_artifacts w0 !! ind_id ind with
       | Some d => (Ok d, w0)
       | None =>
           let w1 := log (StoreFetchArtifact (run_uuid ind) (key ind)) w0 in
           let d := store_artifact (run_uuid ind) (key ind) in
           (Ok d, mkWorld (w_runs w1) (w_series w1)
                          (<[ind_id ind := d]> (w_artifacts w1))
                          (w_next_id w1) (w_trace w1))
       end.

(** What the cache answers for an indicator in a given state. *)
Definition series_payload (w : World) (ind : Indicator)
  : option (ndarray V) :=
  match w_series w !! ind_id ind with
  | Some d => d
  | None => store_series (run_uuid ind) (key ind)
  end.

Definition artifact_payload (w : World) (ind : Indicator) : option Art :=
  match w_artifacts w !! ind_id ind with
  | Some d => d
  | None => store_artifact (run_uuid ind) (key ind)
  end.

(** The collection of indicators [cache.get_run(u).indicators] evaluates to
    in a given state, if the run resolves. *)
Definition run_indicators (w : World) (u : string)
  : option IndicatorCollection :=
  match w_runs w !! u with
  | Some r => Some (indicators r)
  | None => collection_of <$> store_indicators u
  end.

(** *** The facade: [labml/analytics/__init__.py] *)

Fixpoint runs_loop (uuids : list string) (acc : option IndicatorCollection)
  : M (option IndicatorCollection) :=
  match uuids with
  | [] => ret acc
  | r :: rest =>
      let* run := cache_get_run r in
      runs_loop rest (Some (py_plus acc (indicators run)))
  end.

Definition runs (uuids : list string) : M (option IndicatorCollection) :=
  runs_loop uuids None.

Definition get_run (u : string) : M Run := cache_get_run u.

Fixpoint get_data_loop (inds : list Indicator)
    (data : gmap string (ndarray V)) : M (gmap string (ndarray V)) :=
  match inds with
  | [] => ret data
  | ind :: rest =>
      let* d := cache_get_indicator_data ind in
      let* s := lift (subscript_0_5 d) in
      get_data_loop rest (<[key ind := s]> data)
  end.

Definition get_data (indicators : IndicatorCollection)
  : M (gmap string (ndarray V)) :=
  get_data_loop (_indicators indicators) ∅.

Fixpoint _get_series_loop (inds : list Indicator)
    (series : list (ndarray V)) (names : list string)
  : M (list (ndarray V) * list string) :=
  match inds with
  | [] => ret (series, names)
  | ind :: rest =>
      let* d := cache_get_indicator_data ind in
      match d with
      | Some a => _get_series_loop rest (series ++ [a]) (names ++ [key ind])
      | None => _get_series_loop rest series names
      end
  end.

Definition _get_series (indicators : IndicatorCollection)
  : M (list (ndarray V) * list string) :=
  _get_series_loop (_indicators indicators) [] [].

Definition distribution (indicators : IndicatorCollection)
    (levels alpha height width height_minimap : Num) : M Chart :=
  let* sn := _get_series indicators in
  let '(series, names) := sn in
  if decide (series = []) then raise (ValueError "No series found")
  else
    λ w, let a := mkDensityArgs series names levels alpha width height
                                height_minimap in
         (Ok (render_density_minimap_multiple a), log (RenderDensity a) w).

Definition scatter (indicators x : IndicatorCollection)
    (noise : option (Num * Num)) (height width height_minimap : Num)
  : M Chart :=
  let* sn := _get_series indicators in
  let* xsn := _get_series x in
  let '(series, names) := sn in
  let '(x_series, x_names) := xsn in
  if decide (length x_series ≠ 1) then
    raise (ValueError "There should be exactly one series for x-axis")
  else if decide (series = []) then raise (ValueError "No series found")
  else
    let* x0 := lift (py_index0 x_series) in
    let* x_name := lift (py_index0 x_names) in
    λ w, let a := mkScatterArgs series x0 names x_name width height
                                height_minimap noise in
         (Ok (render_scatter a), log (RenderScatter a) w).

Definition indicator_data (indicators : IndicatorCollection)
  : M (list (ndarray V) * list string) :=
  let* sn := _get_series indicators in
  let '(series, names) := sn in
  if decide (series = []) then raise (ValueError "No series found")
  else ret (series, names).

Fixpoint _get_artifacts_loop (inds : list Indicator)
    (series : list Art) (names : list string)
  : M (list Art * list string) :=
  match inds with
  | [] => ret (series, names)
  | ind :: rest =>
      let* d := cache_get_artifact_data ind in
      match d with
      | Some a =>
          _get_artifacts_loop rest (series ++ [a]) (names ++ [key ind])
      | None => _get_artifacts_loop rest series names
      end
  end.

Definition _get_artifacts (indicators : IndicatorCollection)
  : M (list Art * list string) :=
  _get_artifacts_loop (_indicators indicators) [] [].

Definition artifact_data (indicators : IndicatorCollection)
  : M (list Art * list string) :=
  let* sn := _get_artifacts indicators in
  let '(series, names) := sn in
  if decide (series = []) then raise (ValueError "No series found")
  else ret (series, names).

(** *** Observations on traces *)

Definition indicator_calls (t : list Event) : list Indicator :=
  omap (λ e, match e with CacheGetIndicatorData i => Some i | _ => None end) t.

Definition artifact_calls (t : list Event) : list Indicator :=
  omap (λ e, match e with CacheGetArtifactData i => Some i | _ => None end) t.

Definition renders (t : list Event) : list Event :=
  omap (λ e, match e with
             | RenderDensity _ | RenderScatter _ => Some e
             | _ => None
             end) t.

Definition run_fetches (t : list Event) : list string :=
  omap (λ e, match e with StoreListIndicators u => Some u | _ => None end) t.

(** What series extraction yields for a list of indicators in state [w]. *)
Definition extracted_series (w : World) (inds : list Indicator)
  : list (ndarray V) := omap (series_payload w) inds.

Definition series_sources (w : World) (inds : list Indicator)
  : list Indicator := filter (λ i, is_Some (series_payload w i)) inds.

Definition extracted_artifacts (w : World) (inds : list Indicator)
  : list Art := omap (artifact_payload w) inds.

Definition artifact_sources (w : World) (inds : list Indicator)
  : list Indicator := filter (λ i, is_Some (artifact_payload w i)) inds.

(** [a] is [d] restricted to its columns 0 and 5, in that order. *)
Definition step_and_column5 (d a : ndarray V) : Prop :=
  shape a = (length (rows d), 2) ∧
  ∀ t r, rows d !! t = Some r →
    ∃ v0 v5, r !! 0 = Some v0 ∧ r !! 5 = Some v5 ∧
             rows a !! t = Some [v0; v5].

(** The states a process can get to from [w0]: any interleaving of cache
    accesses and renderer invocations. *)
Inductive reachable_from (w0 : World) : World → Prop :=
| reach_refl : reachable_from w0 w0
| reach_get_run u w :
    reachable_from w0 w → reachable_from w0 (cache_get_run u w).2
| reach_indicator_data i w :
    reachable_from w0 w →
    reachable_from w0 (cache_get_indicator_data i w).2
| reach_artifact_data i w :
    reachable_from w0 w →
    reachable_from w0 (cache_get_artifact_data i w).2
| reach_render_density a w :
    reachable_from w0 w → reachable_from w0 (log (RenderDensity a) w)
| reach_render_scatter a w :
    reachable_from w0 w → reachable_from w0 (log (RenderScatter a) w).

(** The states of a process that started with empty caches. *)
Definition reachable : World → Prop := reachable_from init_world.

(** How often the backing store was asked for the run [u]. *)
Definition fetch_count (u : string) (t : list Event) : nat :=
  length (filter (λ v, v = u) (run_fetches t)).

(** The caches of [w'] answer every query as those of [w] do. *)
Definition cache_agrees (w w' : World) : Prop :=
  (∀ i, series_payload w' i = series_payload w i) ∧
  (∀ i, artifact_payload w' i = artifact_payload w i) ∧
  (∀ u, run_indicators w' u = run_indicators w u).

(** [w'] extends the trace of [w] by [t]. *)
Definition extends_trace (w w' : World) (t : list Event) : Prop :=
  w_trace w' = w_trace w ++ t.

(** A payload in which [d[:, [0, 5]]] finds both columns. *)
Definition has_column_5 (d : ndarray V) : Prop :=
  5 < ncols d ∧ well_shaped d.

(** ** Facts about the cache *)

Lemma cache_agrees_refl w : cache_agrees w w.
Proof. by repeat split. Qed.

Lemma cache_agrees_trans w1 w2 w3 :
  cache_agrees w1 w2 → cache_agrees w2 w3 → cache_agrees w1 w3.
Proof.
  intros (A1 & A2 & A3) (B1 & B2 & B3).
  repeat split; intros; [rewrite B1|rewrite B2|rewrite B3]; done.
Qed.

Lemma extends_trace_refl w : extends_trace w w [].
Proof. unfold extends_trace. by rewrite app_nil_r. Qed.

Lemma extends_trace_trans w1 w2 w3 t1 t2 :
  extends_trace w1 w2 t1 → extends_trace w2 w3 t2 →
  extends_trace w1 w3 (t1 ++ t2).
Proof.
  unfold extends_trace. intros H1 H2. by rewrite H2, H1, app_assoc.
Qed.

Lemma ind_id_eq i j :
  ind_id i = ind_id j → run_uuid i = run_uuid j ∧ key i = key j.
Proof. unfold ind_id. intros H. by injection H. Qed.

Lemma cache_get_indicator_data_spec ind w :
  ∃ w' t, cache_get_indicator_data ind w = (Ok (series_payload w ind), w') ∧
          cache_agrees w w' ∧ extends_trace w w' t ∧
          indicator_calls t = [ind] ∧ artifact_calls t = [] ∧
          renders t = [] ∧ run_fetches t = [].
Proof.
  unfold cache_get_indicator_data, cache_agrees, extends_trace,
    series_payload, artifact_payload, run_indicators; simpl.
  destruct (w_series w !! ind_id ind) as [d|] eqn:E.
  - eexists _, [_]. simpl. repeat split; done.
  - eexists _, [_; _]. simpl. rewrite <- app_assoc. simpl.
    repeat split; try done.
    intros i. simpl. destruct (decide (ind_id ind = ind_id i)) as [Heq|Hne].
    + rewrite <- Heq, lookup_insert_eq, E.
      apply ind_id_eq in Heq as [-> ->]. done.
    + by rewrite lookup_insert_ne.
Qed.

Lemma cache_get_artifact_data_spec ind w :
  ∃ w' t, cache_get_artifact_data ind w = (Ok (artifact_payload w ind), w') ∧
          cache_agrees w w' ∧ extends_trace w w' t ∧
          indicator_calls t = [] ∧ artifact_calls t = [ind] ∧
          renders t = [] ∧ run_fetches t = [].
Proof.
  unfold cache_get_artifact_data, cache_agrees, extends_trace,
    series_payload, artifact_payload, run_indicators; simpl.
  destruct (w_artifacts w !! ind_id ind) as [d|] eqn:E.
  - eexists _, [_]. simpl. repeat split; done.
  - eexists _, [_; _]. simpl. rewrite <- app_assoc. simpl.
    repeat split; try done.
    intros i. simpl. destruct (decide (ind_id ind = ind_id i)) as [Heq|Hne].
    + rewrite <- Heq, lookup_insert_eq, E.
      apply ind_id_eq in Heq as [-> ->]. done.
    + by rewrite lookup_insert_ne.
Qed.

Lemma cache_get_run_spec u c w :
  run_indicators w u = Some c →
  ∃ r w' t, cache_get_run u w = (Ok r, w') ∧ indicators r = c ∧
            w_runs w' !! u = Some r ∧
            cache_agrees w w' ∧ extends_trace w w' t ∧
            indicator_calls t = [] ∧ artifact_calls t = [] ∧
            renders t = [].
Proof.
  unfold cache_get_run, cache_agrees, extends_trace,
    series_payload, artifact_payload, run_indicators; simpl.
  destruct (w_runs w !! u) as [r|] eqn:E.
  - intros [= <-]. exists r, w, []. rewrite app_nil_r, E. done.
  - destruct (store_indicators u) as [inds|] eqn:S; [|done].
    intros [= <-]. eexists _, _, [_]. simpl.
    repeat split; simpl; try done.
    + apply lookup_insert_eq.
    + intros u'. destruct (decide (u = u')) as [<-|Hne].
      * by rewrite lookup_insert_eq, E, S.
      * by rewrite lookup_insert_ne.
Qed.

Lemma cache_get_run_unknown u w :
  run_indicators w u = None →
  ∃ w', cache_get_run u w = (Raise (LookupError u), w').
Proof.
  unfold cache_get_run, run_indicators.
  destruct (w_runs w !! u); [done|].
  destruct (store_indicators u); [done|]. eauto.
Qed.

(** ** Series and artifact extraction *)

Lemma omap_filter_aligned {A B} (f : A → option B) (l : list A) i b :
  omap f l !! i = Some b →
  ∃ a, filter (λ x, is_Some (f x)) l !! i = Some a ∧ f a = Some b.
Proof.
  revert i. induction l as [|x l IH]; intros i; simpl; [done|].
  destruct (f x) as [b0|] eqn:E.
  - rewrite filter_cons_True by (rewrite E; eauto).
    destruct i as [|i]; simpl; [|by apply IH].
    intros [= <-]. eauto.
  - rewrite filter_cons_False by (rewrite E; intros [? ?]; done).
    apply IH.
Qed.

Lemma omap_filter_length {A B} (f : A → option B) (l : list A) :
  length (omap f l) = length (filter (λ x, is_Some (f x)) l).
Proof.
  induction l as [|x l IH]; simpl; [done|].
  destruct (f x) as [b0|] eqn:E.
  - rewrite filter_cons_True by (rewrite E; eauto). simpl. by f_equal.
  - by rewrite filter_cons_False by (rewrite E; intros [? ?]; done).
Qed.

Lemma extracted_series_agrees w w' l :
  cache_agrees w w' → extracted_series w' l = extracted_series w l.
Proof.
  intros (H & _ & _). unfold extracted_series.
  induction l as [|x l IH]; simpl; [done|]. rewrite H.
  case_match; [f_equal|]; apply IH.
Qed.

Lemma series_sources_agrees w w' l :
  cache_agrees w w' → series_sources w' l = series_sources w l.
Proof.
  intros (H & _ & _). unfold series_sources.
  induction l as [|x l IH]; [done|].
  destruct (series_payload w x) as [d|] eqn:E.
  - rewrite !filter_cons_True by (rewrite ?H, E; eauto). by rewrite IH.
  - rewrite !filter_cons_False by (rewrite ?H, E; intros [? ?]; done).
    done.
Qed.

Lemma extracted_artifacts_agrees w w' l :
  cache_agrees w w' → extracted_artifacts w' l = extracted_artifacts w l.
Proof.
  intros (_ & H & _). unfold extracted_artifacts.
  induction l as [|x l IH]; simpl; [done|]. rewrite H.
  case_match; [f_equal|]; apply IH.
Qed.

Lemma artifact_sources_agrees w w' l :
  cache_agrees w w' → artifact_sources w' l = artifact_sources w l.
Proof.
  intros (_ & H & _). unfold artifact_sources.
  induction l as [|x l IH]; [done|].
  destruct (artifact_payload w x) as [d|] eqn:E.
  - rewrite !filter_cons_True by (rewrite ?H, E; eauto). by rewrite IH.
  - rewrite !filter_cons_False by (rewrite ?H, E; intros [? ?]; done).
    done.
Qed.

Lemma _get_series_loop_spec inds : ∀ series names w,
  ∃ w' t,
    _get_series_loop inds series names w =
      (Ok (series ++ extracted_series w inds,
           names ++ (key <$> series_sources w inds)), w') ∧
    cache_agrees w w' ∧ extends_trace w w' t ∧
    indicator_calls t = inds ∧ artifact_calls t = [] ∧
    renders t = [] ∧ run_fetches t = [].
Proof.
  induction inds as [|ind rest IH]; intros series names w.
  - exists w, []. simpl. rewrite !app_nil_r.
    eauto 10 using cache_agrees_refl, extends_trace_refl.
  - simpl. unfold bind.
    destruct (cache_get_indicator_data_spec ind w)
      as (w1 & t1 & -> & Hag & Htr & Hi & Ha & Hr & Hf).
    unfold extracted_series, series_sources. simpl.
    destruct (series_payload w ind) as [a|] eqn:E.
    + destruct (IH (series ++ [a]) (names ++ [key ind]) w1)
        as (w2 & t2 & -> & Hag2 & Htr2 & Hi2 & Ha2 & Hr2 & Hf2).
      exists w2, (t1 ++ t2).
      rewrite filter_cons_True by (rewrite E; eauto).
      rewrite (extracted_series_agrees w w1), (series_sources_agrees w w1)
        by done.
      unfold indicator_calls, artifact_calls, renders, run_fetches in *.
      rewrite !omap_app, Hi, Ha, Hr, Hf, Hi2, Ha2, Hr2, Hf2.
      rewrite <- !app_assoc. simpl.
      eauto 10 using cache_agrees_trans, extends_trace_trans.
    + destruct (IH series names w1)
        as (w2 & t2 & -> & Hag2 & Htr2 & Hi2 & Ha2 & Hr2 & Hf2).
      exists w2, (t1 ++ t2).
      rewrite filter_cons_False by (rewrite E; intros [? ?]; done).
      rewrite (extracted_series_agrees w w1), (series_sources_agrees w w1)
        by done.
      unfold indicator_calls, artifact_calls, renders, run_fetches in *.
      rewrite !omap_app, Hi, Ha, Hr, Hf, Hi2, Ha2, Hr2, Hf2.
      eauto 10 using cache_agrees_trans, extends_trace_trans.
Qed.

Lemma _get_artifacts_loop_spec inds : ∀ series names w,
  ∃ w' t,
    _get_artifacts_loop inds series names w =
      (Ok (series ++ extracted_artifacts w inds,
           names ++ (key <$> artifact_sources w inds)), w') ∧
    cache_agrees w w' ∧ extends_trace w w' t ∧
    indicator_calls t = [] ∧ artifact_calls t = inds ∧
    renders t = [] ∧ run_fetches t = [].
Proof.
  induction inds as [|ind rest IH]; intros series names w.
  - exists w, []. simpl. rewrite !app_nil_r.
    eauto 10 using cache_agrees_refl, extends_trace_refl.
  - simpl. unfold bind.
    destruct (cache_get_artifact_data_spec ind w)
      as (w1 & t1 & -> & Hag & Htr & Hi & Ha & Hr & Hf).
    unfold extracted_artifacts, artifact_sources. simpl.
    destruct (artifact_payload w ind) as [a|] eqn:E.
    + destruct (IH (series ++ [a]) (names ++ [key ind]) w1)
        as (w2 & t2 & -> & Hag2 & Htr2 & Hi2 & Ha2 & Hr2 & Hf2).
      exists w2, (t1 ++ t2).
      rewrite filter_cons_True by (rewrite E; eauto).
      rewrite (extracted_artifacts_agrees w w1),
        (artifact_sources_agrees w w1) by done.
      unfold indicator_calls, artifact_calls, renders, run_fetches in *.
      rewrite !omap_app, Hi, Ha, Hr, Hf, Hi2, Ha2, Hr2, Hf2.
      rewrite <- !app_assoc. simpl.
      eauto 10 using cache_agrees_trans, extends_trace_trans.
    + destruct (IH series names w1)
        as (w2 & t2 & -> & Hag2 & Htr2 & Hi2 & Ha2 & Hr2 & Hf2).
      exists w2, (t1 ++ t2).
      rewrite filter_cons_False by (rewrite E; intros [? ?]; done).
      rewrite (extracted_artifacts_agrees w w1),
        (artifact_sources_agrees w w1) by done.
      unfold indicator_calls, artifact_calls, renders, run_fetches in *.
      rewrite !omap_app, Hi, Ha, Hr, Hf, Hi2, Ha2, Hr2, Hf2.
      eauto 10 using cache_agrees_trans, extends_trace_trans.
Qed.

Lemma _get_series_spec c w :
  ∃ w' t,
    _get_series c w =
      (Ok (extracted_series w (_indicators c),
           key <$> series_sources w (_indicators c)), w') ∧
    cache_agrees w w' ∧ extends_trace w w' t ∧
    indicator_calls t = _indicators c ∧ artifact_calls t = [] ∧
    renders t = [] ∧ run_fetches t = [].
Proof. apply (_get_series_loop_spec (_indicators c) [] [] w). Qed.

Lemma _get_artifacts_spec c w :
  ∃ w' t,
    _get_artifacts c w =
      (Ok (extracted_artifacts w (_indicators c),
           key <$> artifact_sources w (_indicators c)), w') ∧
    cache_agrees w w' ∧ extends_trace w w' t ∧
    indicator_calls t = [] ∧ artifact_calls t = _indicators c ∧
    renders t = [] ∧ run_fetches t = [].
Proof. apply (_get_artifacts_loop_spec (_indicators c) [] [] w). Qed.

(** C4: series extraction visits the elements in collection order, asks
    the cache for each element's payload, skips the elements whose payload
    is [None], and returns two index-aligned sequences: [names[i]] is the
    key of the indicator that produced [series[i]].  Artifact extraction
    does the same with artifact payloads. *)
Theorem C4_extraction_aligned (c : IndicatorCollection) (w : World) :
  (∃ series names w' t,
     _get_series c w = (Ok (series, names), w') ∧
     extends_trace w w' t ∧ indicator_calls t = _indicators c ∧
     series = omap (series_payload w) (_indicators c) ∧
     names = key <$> series_sources w (_indicators c) ∧
     length series = length names ∧
     ∀ i s, series !! i = Some s →
       ∃ ind, series_sources w (_indicators c) !! i = Some ind ∧
              ind ∈ _indicators c ∧
              series_payload w ind = Some s ∧
              names !! i = Some (key ind)) ∧
  (∃ series names w' t,
     _get_artifacts c w = (Ok (series, names), w') ∧
     extends_trace w w' t ∧ artifact_calls t = _indicators c ∧
     series = omap (artifact_payload w) (_indicators c) ∧
     names = key <$> artifact_sources w (_indicators c) ∧
     length series = length names ∧
     ∀ i s, series !! i = Some s →
       ∃ ind, artifact_sources w (_indicators c) !! i = Some ind ∧
              ind ∈ _indicators c ∧
              artifact_payload w ind = Some s ∧
              names !! i = Some (key ind)).
Proof.
  split.
  - destruct (_get_series_spec c w) as (w' & t & E & _ & Ht & Hc & _).
    eexists _, _, w', t. repeat split; try done.
    + rewrite length_fmap. apply omap_filter_length.
    + intros i s Hs. apply omap_filter_aligned in Hs as (ind & Hi & Hp).
      exists ind. repeat split; try done.
      * apply list_elem_of_lookup_2 in Hi.
        unfold series_sources in Hi. by apply list_elem_of_filter in Hi as [].
      * rewrite list_lookup_fmap. unfold series_sources. by rewrite Hi.
  - destruct (_get_artifacts_spec c w) as (w' & t & E & _ & Ht & _ & Hc & _).
    eexists _, _, w', t. repeat split; try done.
    + rewrite length_fmap. apply omap_filter_length.
    + intros i s Hs. apply omap_filter_aligned in Hs as (ind & Hi & Hp).
      exists ind. repeat split; try done.
      * apply list_elem_of_lookup_2 in Hi.
        unfold artifact_sources in Hi.
        by apply list_elem_of_filter in Hi as [].
      * rewrite list_lookup_fmap. unfold artifact_sources. by rewrite Hi.
Qed.

(** C7: [indicator_data] and [artifact_data] raise the same
    [ValueError("No series found")] when their extraction yields nothing,
    and otherwise return the extracted (series, names) pair as it is. *)
Theorem C7_data_accessors (c : IndicatorCollection) (w : World) :
  (∃ sn w', _get_series c w = (Ok sn, w') ∧
     (sn.1 = [] →
        indicator_data c w = (Raise (ValueError "No series found"), w')) ∧
     (sn.1 ≠ [] → indicator_data c w = (Ok sn, w'))) ∧
  (∃ sn w', _get_artifacts c w = (Ok sn, w') ∧
     (sn.1 = [] →
        artifact_data c w = (Raise (ValueError "No series found"), w')) ∧
     (sn.1 ≠ [] → artifact_data c w = (Ok sn, w'))).
Proof.
  split.
  - destruct (_get_series_spec c w) as (w' & t & E & _).
    eexists _, w'. split; [exact E|].
    unfold indicator_data, bind. rewrite E. simpl.
    split; intros H; by case_decide.
  - destruct (_get_artifacts_spec c w) as (w' & t & E & _).
    eexists _, w'. split; [exact E|].
    unfold artifact_data, bind. rewrite E. simpl.
    split; intros H; by case_decide.
Qed.

(** C3: [distribution] raises [ValueError("No series found")] if and only
    if series extraction over the collection yields no series; otherwise
    the density renderer is invoked, once, with the extracted series and
    names and the display parameters as given, and its chart is returned. *)
Theorem C3_distribution (c : IndicatorCollection)
    (levels alpha height width height_minimap : Num) (w : World) :
  let series := extracted_series w (_indicators c) in
  let names := key <$> series_sources w (_indicators c) in
  let a := mkDensityArgs series names levels alpha width height
                         height_minimap in
  let out := distribution c levels alpha height width height_minimap w in
  ∃ t, extends_trace w out.2 t ∧
    (out.1 = Raise (ValueError "No series found") ↔ series = []) ∧
    ((∃ e, out.1 = Raise e) ↔ series = []) ∧
    (series = [] → renders t = []) ∧
    (series ≠ [] →
       out.1 = Ok (render_density_minimap_multiple a) ∧
       renders t = [RenderDensity a]).
Proof.
  intros series names a out.
  destruct (_get_series_spec c w) as (w' & t & E & _ & Ht & _ & _ & Hr & _).
  subst out. unfold distribution, bind. rewrite E. simpl.
  fold series names. case_decide as Hs.
  - exists t. simpl. repeat split; eauto; done.
  - exists (t ++ [RenderDensity a]). simpl. repeat split; try done.
    + unfold extends_trace, log in *. simpl. by rewrite Ht, app_assoc.
    + by intros [e ?].
    + unfold renders in *. rewrite omap_app, Hr. done.
Qed.

Lemma singleton_sources {A B} (f : A → option B) (l : list A) b :
  omap f l = [b] →
  ∃ a, filter (λ x, is_Some (f x)) l = [a] ∧ a ∈ l ∧ f a = Some b.
Proof.
  intros H.
  destruct (omap_filter_aligned f l 0 b) as (a & Ha & Hb);
    [by rewrite H|].
  pose proof (omap_filter_length f l) as Hl. rewrite H in Hl. simpl in Hl.
  exists a. destruct (filter _ l) as [|a' [|? ?]] eqn:E; try done.
  simpl in Ha. injection Ha as ->. repeat split; [|done].
  assert (a ∈ filter (λ x, is_Some (f x)) l) as Hin
    by (rewrite E; apply list_elem_of_here).
  by apply list_elem_of_filter in Hin as [].
Qed.

(** C2 (as amended): [scatter] raises a [ValueError] whenever the
    extraction of the x-collection yields a number of series other than
    one, whatever the y-collection is; when it yields exactly one series
    and the extraction of the y-collection yields at least one, the scatter
    renderer is invoked, once, with that x series and its key and with all
    the series and names extracted from the y-collection; when x yields
    exactly one series and y none, [ValueError("No series found")] is
    raised; and whenever an error is raised the renderer has not been
    invoked. *)
Theorem C2_scatter_cardinality (y x : IndicatorCollection)
    (noise : option (Num * Num)) (height width height_minimap : Num)
    (w : World) :
  let series := extracted_series w (_indicators y) in
  let names := key <$> series_sources w (_indicators y) in
  let x_series := extracted_series w (_indicators x) in
  let out := scatter y x noise height width height_minimap w in
  ∃ t, extends_trace w out.2 t ∧
    (length x_series ≠ 1 →
       out.1 = Raise (ValueError
                        "There should be exactly one series for x-axis") ∧
       renders t = []) ∧
    (∀ x0, x_series = [x0] → series = [] →
       out.1 = Raise (ValueError "No series found") ∧ renders t = []) ∧
    (∀ x0, x_series = [x0] → series ≠ [] →
       ∃ xind, xind ∈ _indicators x ∧ series_payload w xind = Some x0 ∧
         let a := mkScatterArgs series x0 names (key xind) width height
                                height_minimap noise in
         out.1 = Ok (render_scatter a) ∧ renders t = [RenderScatter a]) ∧
    (∀ e, out.1 = Raise e → renders t = []).
Proof.
  intros series names x_series out.
  destruct (_get_series_spec y w)
    as (w1 & t1 & E1 & Hag1 & Ht1 & _ & _ & Hr1 & _).
  destruct (_get_series_spec x w1)
    as (w2 & t2 & E2 & Hag2 & Ht2 & _ & _ & Hr2 & _).
  rewrite (extracted_series_agrees w w1), (series_sources_agrees w w1)
    in E2 by done.
  subst out. unfold scatter, bind. rewrite E1, E2. simpl.
  fold series names x_series.
  pose proof (extends_trace_trans _ _ _ _ _ Ht1 Ht2) as Ht.
  assert (renders (t1 ++ t2) = []) as Hr
    by (unfold renders in *; by rewrite omap_app, Hr1, Hr2).
  case_decide as Hx; [|case_decide as Hs].
  - exists (t1 ++ t2). simpl.
    assert (∀ x0, x_series ≠ [x0]) as Hne
      by (intros x0 Hx0; by rewrite Hx0 in Hx).
    repeat split; try done; intros; exfalso; by eapply Hne.
  - exists (t1 ++ t2). simpl. repeat split; try done.
  - destruct x_series as [|x0 [|? ?]] eqn:Ex; try done.
    destruct (singleton_sources (series_payload w) (_indicators x) x0)
      as (xind & Hsrc & Hin & Hp); [done|].
    unfold series_sources. rewrite Hsrc. simpl.
    set (a := mkScatterArgs series x0 names (key xind) width height
                            height_minimap noise).
    exists ((t1 ++ t2) ++ [RenderScatter a]). simpl. repeat split; try done.
    + unfold extends_trace, log in *. simpl. by rewrite Ht, <- !app_assoc.
    + intros x1 [= <-] _. exists xind. repeat split; try done.
      unfold renders in *. by rewrite omap_app, Hr.
Qed.

(** ** Shaped data: [get_data] *)

Lemma row_0_5 (r y : list V) :
  mapM (λ c, r !! c) [0; 5] = Some y →
  ∃ v0 v5, r !! 0 = Some v0 ∧ r !! 5 = Some v5 ∧ y = [v0; v5].
Proof.
  cbn. destruct (r !! 0) as [v0|]; [|done].
  destruct (r !! 5) as [v5|]; [|done].
  cbn. intros [= <-]. eauto.
Qed.

Lemma select_columns_0_5 (d : ndarray V) :
  5 < ncols d → well_shaped d →
  ∃ a, select_columns [0; 5] d = Ok a ∧ step_and_column5 d a.
Proof.
  intros Hc Hw. unfold select_columns.
  rewrite decide_True by (repeat constructor; lia).
  destruct (mapM _ (rows d)) as [rs|] eqn:E.
  - exists (mkArray 2 rs). split; [done|].
    apply mapM_Some in E. unfold step_and_column5, shape. simpl.
    split; [by rewrite (Forall2_length _ _ _ E)|].
    intros t r Hr.
    destruct (Forall2_lookup_l _ _ _ _ _ E Hr) as (y & Hy & Hf).
    apply row_0_5 in Hf as (v0 & v5 & H0 & H5 & ->). eauto.
  - exfalso. apply mapM_None in E. apply Exists_exists in E as (r & Hr & E).
    unfold well_shaped in Hw. rewrite Forall_forall in Hw.
    specialize (Hw r Hr).
    destruct (lookup_lt_is_Some_2 r 0) as [v0 H0]; [lia|].
    destruct (lookup_lt_is_Some_2 r 5) as [v5 H5]; [lia|].
    cbn in E. rewrite H0, H5 in E. done.
Qed.

Lemma get_data_loop_spec inds : ∀ data w,
  (∀ ind, ind ∈ inds →
     ∃ d, series_payload w ind = Some d ∧ histogram_format d) →
  ∃ m w' t,
    get_data_loop inds data w = (Ok m, w') ∧
    cache_agrees w w' ∧ extends_trace w w' t ∧
    indicator_calls t = inds ∧ renders t = [] ∧
    ∀ k, match last (filter (λ i, key i = k) inds) with
         | Some ind => ∃ d a, series_payload w ind = Some d ∧
                              select_columns [0; 5] d = Ok a ∧
                              m !! k = Some a
         | None => m !! k = data !! k
         end.
Proof.
  induction inds as [|ind rest IH]; intros data w Hall.
  - exists data, w, []. simpl.
    eauto 10 using cache_agrees_refl, extends_trace_refl.
  - simpl. unfold bind, lift.
    destruct (cache_get_indicator_data_spec ind w)
      as (w1 & t1 & -> & Hag & Htr & Hi & _ & Hr & _).
    destruct (Hall ind) as (d & Hd & Hc & Hw); [apply list_elem_of_here|].
    rewrite Hd. simpl.
    destruct (select_columns_0_5 d) as (s & Hs & _); [lia|done|].
    rewrite Hs.
    destruct (IH (<[key ind := s]> data) w1)
      as (m & w2 & t2 & -> & Hag2 & Htr2 & Hi2 & Hr2 & Hm).
    { intros i Hin. destruct Hag as (-> & _).
      apply Hall. by apply list_elem_of_further. }
    exists m, w2, (t1 ++ t2).
    unfold indicator_calls, renders in *.
    rewrite !omap_app, Hi, Hi2, Hr, Hr2. simpl.
    split; [done|]. split; [by eapply cache_agrees_trans|].
    split; [by eapply extends_trace_trans|]. do 2 (split; [done|]).
    intros k. specialize (Hm k).
    destruct (decide (key ind = k)) as [Hk|Hk].
    + rewrite filter_cons_True by done. rewrite last_cons.
      destruct (last (filter _ rest)) as [ind'|].
      * destruct Hag as (Hp & _). by rewrite <- Hp.
      * exists d, s. by rewrite Hm, Hk, lookup_insert_eq.
    + rewrite filter_cons_False by done.
      destruct (last (filter _ rest)) as [ind'|].
      * destruct Hag as (Hp & _). by rewrite <- Hp.
      * by rewrite Hm, lookup_insert_ne.
Qed.

Lemma get_data_loop_absent inds : ∀ data w,
  (∃ ind, ind ∈ inds ∧ series_payload w ind = None) →
  (∀ ind d, ind ∈ inds → series_payload w ind = Some d →
            histogram_format d) →
  ∃ w', get_data_loop inds data w =
          (Raise (TypeError "'NoneType' object is not subscriptable"), w').
Proof.
  induction inds as [|ind rest IH]; intros data w (i & Hin & Hi) Hall.
  - by apply elem_of_nil in Hin.
  - simpl. unfold bind, lift.
    destruct (cache_get_indicator_data_spec ind w)
      as (w1 & t1 & -> & Hag & _).
    destruct (series_payload w ind) as [d|] eqn:Hd; simpl; [|by eauto].
    destruct (Hall ind d) as (Hc & Hw); [apply list_elem_of_here|done|].
    destruct (select_columns_0_5 d) as (s & -> & _); [lia|done|].
    apply elem_of_cons in Hin as [->|Hin]; [congruence|].
    destruct Hag as (Hp & _).
    apply IH.
    + exists i. by rewrite Hp.
    + intros j dj Hj. rewrite Hp. apply Hall. by apply list_elem_of_further.
Qed.

(** C5: when every indicator of the collection has a payload (in histogram
    format, [T, 10]), [get_data] returns a mapping whose keys are the keys
    of the indicators and whose values are [T, 2] arrays made of column 0
    (the global step) and column 5 of a payload stored under that key,
    entries unchanged; column 5 is the 50.00-percentile basis point. *)
Theorem C5_get_data_columns (c : IndicatorCollection) (w : World) :
  (∀ ind, ind ∈ _indicators c →
     ∃ d, series_payload w ind = Some d ∧ histogram_format d) →
  ∃ m w', get_data c w = (Ok m, w') ∧
    (∀ k, is_Some (m !! k) ↔ ∃ ind, ind ∈ _indicators c ∧ key ind = k) ∧
    (∀ k a, m !! k = Some a →
       ∃ ind d, ind ∈ _indicators c ∧ key ind = k ∧
                series_payload w ind = Some d ∧
                shape a = (length (rows d), 2) ∧
                step_and_column5 d a) ∧
    basis_point_of_column 0 = None ∧
    basis_point_of_column 5 = Some 5000%Z.
Proof.
  intros Hall.
  destruct (get_data_loop_spec (_indicators c) ∅ w Hall)
    as (m & w' & t & E & _ & _ & _ & _ & Hm).
  assert (∀ k a, m !! k = Some a →
       ∃ ind d, ind ∈ _indicators c ∧ key ind = k ∧
                series_payload w ind = Some d ∧
                shape a = (length (rows d), 2) ∧
                step_and_column5 d a) as Hval.
  { intros k a Hk. specialize (Hm k).
    destruct (last (filter _ (_indicators c))) as [ind|] eqn:El.
    - destruct Hm as (d & a' & Hd & Hs & Ha).
      apply last_Some_elem_of, list_elem_of_filter in El as [Hkey Hin].
      destruct (Hall ind Hin) as (d' & Hd' & Hc & Hw).
      assert (d' = d) as -> by congruence.
      destruct (select_columns_0_5 d) as (s & Hs' & Hsc); [lia|done|].
      assert (a = s) as -> by congruence.
      exists ind, d. repeat split; try done; apply Hsc.
    - rewrite Hm, lookup_empty in Hk. done. }
  exists m, w'. repeat split; try done.
  - intros [a Ha]. destruct (Hval k a Ha) as (ind & d & ? & ? & _). eauto.
  - intros (ind & Hin & Hkey). specialize (Hm k).
    destruct (last (filter _ (_indicators c))) as [ind'|] eqn:El.
    + destruct Hm as (d & a & _ & _ & ->). eauto.
    + apply last_None in El.
      exfalso. eapply (filter_nil_not_elem_of _ _ ind El); done.
Qed.

(** C6: when several indicators of the collection share a key (each with a
    payload), [get_data] raises nothing and the mapping holds, under that
    key, the shaped data of the last such indicator in collection order. *)
Theorem C6_get_data_last_wins (c : IndicatorCollection) (w : World)
    (k : string) (ind : Indicator) :
  (∀ i, i ∈ _indicators c →
     ∃ d, series_payload w i = Some d ∧ histogram_format d) →
  last (filter (λ i, key i = k) (_indicators c)) = Some ind →
  ∃ m w' a, get_data c w = (Ok m, w') ∧
            subscript_0_5 (series_payload w ind) = Ok a ∧
            m !! k = Some a.
Proof.
  intros Hall Hlast.
  destruct (get_data_loop_spec (_indicators c) ∅ w Hall)
    as (m & w' & t & E & _ & _ & _ & _ & Hm).
  specialize (Hm k). rewrite Hlast in Hm.
  destruct Hm as (d & a & Hd & Hs & Ha).
  exists m, w', a. rewrite Hd. done.
Qed.

(** C1: [get_data] has no guard for an absent payload: when the cache
    answers [None] for an indicator of the collection (the other payloads
    being in histogram format), [get_data] raises a [TypeError] where it
    subscripts the payload, while series extraction over the same
    collection succeeds and leaves that indicator out. *)
Theorem C1_get_data_absent_payload_raises (c : IndicatorCollection)
    (w : World) :
  (∃ ind, ind ∈ _indicators c ∧ series_payload w ind = None) →
  (∀ ind d, ind ∈ _indicators c → series_payload w ind = Some d →
            histogram_format d) →
  (∃ w', get_data c w =
           (Raise (TypeError "'NoneType' object is not subscriptable"), w')) ∧
  (∃ w', _get_series c w =
           (Ok (omap (series_payload w) (_indicators c),
                key <$> series_sources w (_indicators c)), w')).
Proof.
  intros Habs Hall. split.
  - by apply get_data_loop_absent.
  - destruct (_get_series_spec c w) as (w' & t & E & _). eauto.
Qed.

(** ** The collection algebra *)

Lemma filter_iff_elem {A} (P Q : A → Prop)
    `{!∀ x, Decision (P x), !∀ x, Decision (Q x)} (l : list A) :
  (∀ x, x ∈ l → P x ↔ Q x) → filter P l = filter Q l.
Proof.
  induction l as [|a l IH]; intros HPQ; [done|].
  assert (filter P l = filter Q l) as E
    by (apply IH; intros x Hx; apply HPQ; by apply list_elem_of_further).
  destruct (decide (P a)) as [Ha|Ha].
  - rewrite (filter_cons_True P) by done.
    rewrite (filter_cons_True Q) by (apply HPQ; [apply list_elem_of_here|done]).
    by rewrite E.
  - rewrite (filter_cons_False P) by done.
    rewrite (filter_cons_False Q); [done|].
    intros HQ. apply Ha, HPQ; [apply list_elem_of_here|done].
Qed.

Lemma filter_all {A} (P : A → Prop) `{!∀ x, Decision (P x)} (l : list A) :
  (∀ x, x ∈ l → P x) → filter P l = l.
Proof.
  induction l as [|a l IH]; intros HP; [done|].
  rewrite filter_cons_True by (apply HP, list_elem_of_here).
  f_equal. apply IH. intros x Hx. by apply HP, list_elem_of_further.
Qed.

Lemma filter_none {A} (P : A → Prop) `{!∀ x, Decision (P x)} (l : list A) :
  (∀ x, x ∈ l → ¬ P x) → filter P l = [].
Proof.
  induction l as [|a l IH]; intros HP; [done|].
  rewrite filter_cons_False by (apply HP, list_elem_of_here).
  apply IH. intros x Hx. by apply HP, list_elem_of_further.
Qed.

Lemma present_app x l1 l2 :
  present x (l1 ++ l2) ↔ present x l1 ∨ present x l2.
Proof. unfold present. by rewrite fmap_app, elem_of_app. Qed.

Lemma present_singleton x y : present x [y] ↔ ind_id x = ind_id y.
Proof. unfold present. simpl. apply list_elem_of_singleton. Qed.

Lemma extend_app acc l1 l2 :
  extend acc (l1 ++ l2) = extend (extend acc l1) l2.
Proof.
  revert acc. induction l1 as [|x l1 IH]; intros acc; simpl; [done|].
  by case_decide.
Qed.

Lemma extend_filter l : ∀ acc,
  NoDup (ind_id <$> l) →
  extend acc l = acc ++ filter (λ x, ¬ present x acc) l.
Proof.
  induction l as [|x l IH]; intros acc Hnd; simpl.
  - by rewrite app_nil_r.
  - rewrite fmap_cons in Hnd. apply NoDup_cons in Hnd as [Hx Hnd].
    case_decide as Hp.
    + rewrite filter_cons_False by tauto. by apply IH.
    + rewrite filter_cons_True by done. rewrite IH by done.
      rewrite <- app_assoc. simpl. do 2 f_equal.
      apply filter_iff_elem. intros z Hz.
      rewrite present_app, present_singleton.
      split; [tauto|]. intros Hn [?|Heq]; [done|].
      apply Hx. rewrite <- Heq. by apply list_elem_of_fmap_2.
Qed.

Lemma extend_NoDup l : ∀ acc,
  NoDup (ind_id <$> acc) → NoDup (ind_id <$> extend acc l).
Proof.
  induction l as [|x l IH]; intros acc Hnd; simpl; [done|].
  case_decide as Hp; [by apply IH|]. apply IH.
  rewrite fmap_app. apply NoDup_app. repeat split; [done| |].
  - intros z Hz Hz'. apply list_elem_of_singleton in Hz'. by subst.
  - apply NoDup_singleton.
Qed.

Lemma collection_of_wf l : wf (collection_of l).
Proof. apply extend_NoDup. constructor. Qed.

Lemma extend_nil_id l : NoDup (ind_id <$> l) → extend [] l = l.
Proof.
  intros Hl. rewrite extend_filter by done.
  simpl. apply filter_all. intros x _ Hx.
  by apply elem_of_nil in Hx.
Qed.

Lemma collection_of_id c :
  wf c → _indicators (collection_of (_indicators c)) = _indicators c.
Proof. apply extend_nil_id. Qed.

Lemma add_elements a b :
  wf a → wf b →
  _indicators (__add__ a b) =
    _indicators a ++
    filter (λ x, ¬ present x (_indicators a)) (_indicators b).
Proof.
  intros Ha Hb. unfold __add__, collection_of. simpl.
  rewrite extend_app, (extend_nil_id (_indicators a)) by done.
  by apply extend_filter.
Qed.

(** C9 (modelled from the spec): addition returns the left operand's
    elements followed by those elements of the right operand that are not
    already present (same run id and key), and the result is again free of
    duplicates; for disjoint [a] and [b] the result is [a]'s elements
    followed by [b]'s, so [len(a + b) = len(a) + len(b)]; and [a + a] has
    the length (indeed the elements) of [a]. *)
Theorem C9_collection_addition (a b : IndicatorCollection) :
  wf a → wf b →
  _indicators (__add__ a b) =
    _indicators a ++
    filter (λ x, ¬ present x (_indicators a)) (_indicators b) ∧
  wf (__add__ a b) ∧
  (disjoint a b →
     _indicators (__add__ a b) = _indicators a ++ _indicators b ∧
     length (_indicators (__add__ a b)) =
       length (_indicators a) + length (_indicators b)) ∧
  _indicators (__add__ a a) = _indicators a ∧
  length (_indicators (__add__ a a)) = length (_indicators a).
Proof.
  intros Ha Hb. split; [by apply add_elements|].
  split; [apply collection_of_wf|]. split.
  - intros Hd. rewrite add_elements by done.
    rewrite filter_all by apply Hd. by rewrite length_app.
  - rewrite add_elements by done.
    rewrite filter_none, app_nil_r; [done|].
    intros x Hx Hn. apply Hn. by apply list_elem_of_fmap_2.
Qed.

(** ** Runs *)

Lemma runs_loop_spec uuids cs :
  ∀ acc w,
    Forall2 (λ u c, run_indicators w u = Some c) uuids cs →
    ∃ w' t, runs_loop uuids acc w =
              (Ok (foldl (λ a c, Some (py_plus a c)) acc cs), w') ∧
            cache_agrees w w' ∧ extends_trace w w' t ∧
            indicator_calls t = [] ∧ artifact_calls t = [] ∧
            renders t = [].
Proof.
  revert cs. induction uuids as [|u uuids IH]; intros cs acc w Hall.
  - apply Forall2_nil_inv_l in Hall as ->.
    exists w, []. simpl.
    eauto 10 using cache_agrees_refl, extends_trace_refl.
  - apply Forall2_cons_inv_l in Hall as (c & cs' & Hc & Hall & ->).
    simpl. unfold bind.
    destruct (cache_get_run_spec u c w Hc)
      as (r & w1 & t1 & -> & Hr & _ & Hag & Htr & Hi & Ha & Hre).
    rewrite Hr.
    destruct (IH cs' (Some (py_plus acc c)) w1)
      as (w2 & t2 & -> & Hag2 & Htr2 & Hi2 & Ha2 & Hre2).
    { eapply Forall2_impl; [exact Hall|]. simpl. intros u' c' <-.
      apply Hag. }
    exists w2, (t1 ++ t2).
    unfold indicator_calls, artifact_calls, renders in *.
    rewrite !omap_app, Hi, Ha, Hre, Hi2, Ha2, Hre2.
    eauto 10 using cache_agrees_trans, extends_trace_trans.
Qed.

(** C8 (addition modelled from the spec): for run identifiers that all
    resolve, [runs] returns the left fold of Python's [+] over the runs'
    indicator collections in argument order, starting from [None]; and
    [None + c] has the elements of [c]. *)
Theorem C8_runs_fold (uuids : list string) (cs : list IndicatorCollection)
    (w : World) :
  Forall2 (λ u c, run_indicators w u = Some c) uuids cs →
  (∃ w', runs uuids w =
           (Ok (foldl (λ acc c, Some (py_plus acc c)) None cs), w')) ∧
  (∀ c, wf c → _indicators (py_plus None c) = _indicators c) ∧
  (∀ c rest, cs = c :: rest → wf c →
     foldl (λ acc c, Some (py_plus acc c)) None cs =
     foldl (λ acc c, Some (py_plus acc c)) (Some c) rest).
Proof.
  intros Hall. split; [|split].
  - destruct (runs_loop_spec uuids cs None w Hall) as (w' & t & E & _).
    eauto.
  - intros c Hc. simpl. by apply collection_of_id.
  - intros c rest -> Hc. simpl. do 2 f_equal.
    unfold collection_of. rewrite extend_nil_id by done. by destruct c.
Qed.

(** ** The run cache over a process lifetime *)

Lemma fetch_count_app u t1 t2 :
  fetch_count u (t1 ++ t2) = fetch_count u t1 + fetch_count u t2.
Proof.
  unfold fetch_count, run_fetches.
  by rewrite omap_app, filter_app, length_app.
Qed.

Lemma cached_run_stable w0 w u r :
  reachable_from w0 w → w_runs w0 !! u = Some r → w_runs w !! u = Some r.
Proof.
  intros Hreach H0.
  induction Hreach as [|u' w Hw IH|i w Hw IH|i w Hw IH|a w Hw IH|a w Hw IH];
    try done.
  - unfold cache_get_run.
    destruct (w_runs w !! u') as [r'|] eqn:E; [done|].
    destruct (store_indicators u'); [|done]. simpl.
    rewrite lookup_insert_ne; [done|]. intros ->. congruence.
  - unfold cache_get_indicator_data. simpl.
    by destruct (w_series w !! ind_id i).
  - unfold cache_get_artifact_data. simpl.
    by destruct (w_artifacts w !! ind_id i).
Qed.

Lemma fetch_count_snoc u t e :
  fetch_count u (t ++ [e]) =
  fetch_count u t +
  match e with
  | StoreListIndicators v => if decide (v = u) then 1 else 0
  | _ => 0
  end.
Proof.
  rewrite fetch_count_app. f_equal. unfold fetch_count.
  destruct e; try done. simpl. rewrite filter_cons. by case_decide.
Qed.

Lemma fetch_count_invariant w u :
  reachable w → is_Some (store_indicators u) →
  fetch_count u (w_trace w) ≤ 1 ∧
  (w_runs w !! u = None → fetch_count u (w_trace w) = 0).
Proof.
  intros Hreach Hu.
  induction Hreach as [|u' w Hw IH|i w Hw IH|i w Hw IH|a w Hw IH|a w Hw IH].
  - split; [cbn; lia|done].
  - destruct IH as [IH1 IH2]. unfold cache_get_run.
    destruct (w_runs w !! u') as [r'|] eqn:E; [done|].
    destruct (store_indicators u') as [inds|] eqn:S; simpl;
      rewrite fetch_count_snoc.
    + destruct (decide (u' = u)) as [->|Hne].
      * rewrite IH2 by done. rewrite lookup_insert_eq. split; [lia|done].
      * rewrite lookup_insert_ne by done. by rewrite Nat.add_0_r.
    + rewrite decide_False, Nat.add_0_r; [done|].
      intros ->. rewrite S in Hu. by destruct Hu.
  - unfold cache_get_indicator_data. simpl.
    destruct (w_series w !! ind_id i); simpl;
      rewrite <- ?app_assoc, ?app_assoc, !fetch_count_snoc, ?Nat.add_0_r;
      done.
  - unfold cache_get_artifact_data. simpl.
    destruct (w_artifacts w !! ind_id i); simpl;
      rewrite <- ?app_assoc, ?app_assoc, !fetch_count_snoc, ?Nat.add_0_r;
      done.
  - simpl. by rewrite fetch_count_snoc, Nat.add_0_r.
  - simpl. by rewrite fetch_count_snoc, Nat.add_0_r.
Qed.

Lemma cached_run_uuid w u r :
  reachable w → w_runs w !! u = Some r → uuid r = u.
Proof.
  intros Hreach. revert r.
  induction Hreach as [|u' w Hw IH|i w Hw IH|i w Hw IH|a w Hw IH|a w Hw IH];
    intros r; try (by apply IH).
  - simpl. by rewrite lookup_empty.
  - unfold cache_get_run.
    destruct (w_runs w !! u') as [r'|] eqn:E; [by apply IH|].
    destruct (store_indicators u'); [|by apply IH]. simpl.
    destruct (decide (u' = u)) as [->|Hne].
    + rewrite lookup_insert_eq. by intros [= <-].
    + rewrite lookup_insert_ne by done. apply IH.
  - unfold cache_get_indicator_data. simpl.
    destruct (w_series w !! ind_id i); apply IH.
  - unfold cache_get_artifact_data. simpl.
    destruct (w_artifacts w !! ind_id i); apply IH.
Qed.

Lemma reachable_from_trans w0 w1 w2 :
  reachable_from w0 w1 → reachable_from w1 w2 → reachable_from w0 w2.
Proof. intros H1 H2. induction H2; by try constructor. Qed.

(** C10 (as amended; the cache is modelled from the spec): for an identifier
    known to the backing store, in every state of a process [get_run] returns a [Run]; every
    later call with that identifier, whatever happened in between, returns
    that same object and leaves the state as it is; and over the process
    lifetime the backing store is asked for that run at most once. *)
Theorem C10_get_run_identity_stable (u : string) (w : World) :
  is_Some (store_indicators u) → reachable w →
  ∃ r w1,
    get_run u w = (Ok r, w1) ∧ uuid r = u ∧
    get_run u w1 = (Ok r, w1) ∧
    (∀ w2, reachable_from w1 w2 →
       get_run u w2 = (Ok r, w2) ∧ fetch_count u (w_trace w2) ≤ 1).
Proof.
  intros Hu Hreach.
  assert (∃ r w1, get_run u w = (Ok r, w1) ∧ w_runs w1 !! u = Some r)
    as (r & w1 & E & Hc).
  { unfold get_run, cache_get_run.
    destruct (w_runs w !! u) as [r|] eqn:Ec; [by eauto|].
    destruct Hu as [inds ->]. eexists _, _. split; [done|]. simpl.
    by rewrite lookup_insert_eq. }
  assert (reachable w1) as Hreach1.
  { replace w1 with (cache_get_run u w).2
      by (unfold get_run in E; by rewrite E).
    by constructor. }
  assert (∀ w2, reachable_from w1 w2 → get_run u w2 = (Ok r, w2)) as Hst.
  { intros w2 H2. unfold get_run, cache_get_run.
    by rewrite (cached_run_stable w1 w2 u r H2 Hc). }
  exists r, w1. repeat split; try done.
  - by apply (cached_run_uuid w1).
  - apply Hst. constructor.
  - by apply Hst.
  - apply fetch_count_invariant; [|done].
    by apply (reachable_from_trans _ w1).
Qed.

(** ** Further properties of the facade *)

(** *** [runs] *)

Lemma runs_loop_app pre : ∀ post acc w,
  runs_loop (pre ++ post) acc w =
  match runs_loop pre acc w with
  | (Ok acc', w') => runs_loop post acc' w'
  | (Raise e, w') => (Raise e, w')
  end.
Proof.
  induction pre as [|u pre IH]; intros post acc w; simpl; [done|].
  unfold bind. destruct (cache_get_run u w) as [[r|e] w1]; [|done].
  apply IH.
Qed.

Lemma runs_loop_Some uuids : ∀ acc w v w',
  runs_loop uuids acc w = (Ok v, w') → uuids = [] ∧ v = acc ∨ is_Some v.
Proof.
  induction uuids as [|u uuids IH]; intros acc w v w'; simpl.
  - intros [= <- <-]. by left.
  - unfold bind. destruct (cache_get_run u w) as [[r|e] w1]; [|done].
    intros E. apply IH in E as [[_ ->]|E]; right; eauto.
Qed.

(** X2: [runs] returns [None] exactly when it is called without
    identifiers; with at least one identifier it either raises or returns a
    collection. *)
Theorem runs_None_iff_no_uuid (uuids : list string) (w : World) :
  (runs uuids w).1 = Ok None ↔ uuids = [].
Proof.
  split; [|by intros ->].
  unfold runs. destruct (runs_loop uuids None w) as [res w'] eqn:E. simpl.
  intros ->. apply runs_loop_Some in E as [[-> _]|[? ?]]; done.
Qed.

(** X3: [runs] stops at the first identifier for which the cache raises: the
    exception of that call is the exception of [runs], the state is the one
    that call left, and the identifiers after it are not looked up. *)
Theorem runs_stops_at_first_failure (pre post : list string) (u : string)
    (w w1 w' : World) (acc : option IndicatorCollection) (e : exn) :
  runs pre w = (Ok acc, w1) →
  cache_get_run u w1 = (Raise e, w') →
  runs (pre ++ u :: post) w = (Raise e, w').
Proof.
  unfold runs. intros Hpre Hu. rewrite runs_loop_app, Hpre. simpl.
  unfold bind. by rewrite Hu.
Qed.

(** *** [get_data] *)

Lemma subscript_0_5_wide (d : ndarray V) :
  has_column_5 d →
  ∃ a, subscript_0_5 (Some d) = Ok a ∧ step_and_column5 d a.
Proof. intros [Hc Hw]. by apply select_columns_0_5. Qed.

Lemma subscript_0_5_narrow (d : ndarray V) :
  ncols d ≤ 5 →
  ∃ msg, subscript_0_5 (Some d) = Raise (IndexError msg).
Proof.
  intros Hc. unfold subscript_0_5, select_columns.
  rewrite decide_False; [by eauto|].
  intros H. apply Forall_cons in H as [_ H]. apply Forall_cons in H as [H _].
  lia.
Qed.

Lemma subscript_0_5_Ok_inv (d : option (ndarray V)) a :
  subscript_0_5 d = Ok a → ∃ d', d = Some d' ∧ 5 < ncols d'.
Proof.
  destruct d as [d'|]; [|done]. simpl. unfold select_columns.
  case_decide as H; [|done]. intros _. exists d'. split; [done|].
  apply Forall_cons in H as [_ H]. by apply Forall_cons in H as [H _].
Qed.

Lemma get_data_loop_wide inds : ∀ data w,
  (∀ ind, ind ∈ inds →
     ∃ d, series_payload w ind = Some d ∧ has_column_5 d) →
  ∃ m w' t,
    get_data_loop inds data w = (Ok m, w') ∧
    cache_agrees w w' ∧ extends_trace w w' t ∧
    indicator_calls t = inds ∧
    ∀ k, match last (filter (λ i, key i = k) inds) with
         | Some ind => ∃ d a, series_payload w ind = Some d ∧
                              select_columns [0; 5] d = Ok a ∧
                              step_and_column5 d a ∧ m !! k = Some a
         | None => m !! k = data !! k
         end.
Proof.
  induction inds as [|ind rest IH]; intros data w Hall.
  - exists data, w, []. simpl.
    eauto 10 using cache_agrees_refl, extends_trace_refl.
  - simpl. unfold bind, lift.
    destruct (cache_get_indicator_data_spec ind w)
      as (w1 & t1 & -> & Hag & Htr & Hi & _).
    destruct (Hall ind) as (d & Hd & Hwide); [apply list_elem_of_here|].
    rewrite Hd.
    destruct (subscript_0_5_wide d Hwide) as (s & Es & Hs). rewrite Es.
    destruct (IH (<[key ind := s]> data) w1)
      as (m & w2 & t2 & -> & Hag2 & Htr2 & Hi2 & Hm).
    { intros i Hin. destruct Hag as (-> & _).
      apply Hall. by apply list_elem_of_further. }
    exists m, w2, (t1 ++ t2).
    unfold indicator_calls in *. rewrite omap_app, Hi, Hi2. simpl.
    split; [done|]. split; [by eapply cache_agrees_trans|].
    split; [by eapply extends_trace_trans|]. split; [done|].
    intros k. specialize (Hm k). destruct Hag as (Hp & _).
    destruct (decide (key ind = k)) as [Hk|Hk].
    + rewrite filter_cons_True by done. rewrite last_cons.
      destruct (last (filter _ rest)) as [ind'|].
      * by rewrite <- Hp.
      * exists d, s. by rewrite Hm, Hk, lookup_insert_eq.
    + rewrite filter_cons_False by done.
      destruct (last (filter _ rest)) as [ind'|].
      * by rewrite <- Hp.
      * by rewrite Hm, lookup_insert_ne.
Qed.

Lemma get_data_loop_Ok_inv inds : ∀ data w m w',
  get_data_loop inds data w = (Ok m, w') →
  ∀ ind, ind ∈ inds → ∃ d, series_payload w ind = Some d ∧ 5 < ncols d.
Proof.
  induction inds as [|ind rest IH]; intros data w m w' E i Hin.
  - by apply elem_of_nil in Hin.
  - simpl in E. unfold bind, lift in E.
    destruct (cache_get_indicator_data_spec ind w)
      as (w1 & t1 & E1 & (Hp & _) & _).
    rewrite E1 in E.
    destruct (subscript_0_5 (series_payload w ind)) as [s|e] eqn:Es; [|done].
    apply elem_of_cons in Hin as [->|Hin].
    + by apply subscript_0_5_Ok_inv in Es.
    + rewrite <- Hp. by eapply IH.
Qed.

Lemma get_data_loop_first_failure pre bad post e : ∀ data w,
  (∀ ind, ind ∈ pre →
     ∃ d, series_payload w ind = Some d ∧ has_column_5 d) →
  subscript_0_5 (series_payload w bad) = Raise e →
  ∃ w' t, get_data_loop (pre ++ bad :: post) data w = (Raise e, w') ∧
          extends_trace w w' t ∧ indicator_calls t = pre ++ [bad] ∧
          artifact_calls t = [] ∧ renders t = [].
Proof.
  induction pre as [|ind pre IH]; intros data w Hall Hbad; simpl;
    unfold bind, lift.
  - destruct (cache_get_indicator_data_spec bad w)
      as (w1 & t1 & -> & _ & Htr & Hi & Ha & Hr & _).
    rewrite Hbad. exists w1, t1. by repeat split.
  - destruct (cache_get_indicator_data_spec ind w)
      as (w1 & t1 & -> & Hag & Htr & Hi & Ha & Hr & _).
    destruct (Hall ind) as (d & Hd & Hwide); [apply list_elem_of_here|].
    rewrite Hd.
    destruct (subscript_0_5_wide d Hwide) as (s & -> & _).
    destruct Hag as (Hp & _).
    destruct (IH (<[key ind := s]> data) w1)
      as (w2 & t2 & -> & Htr2 & Hi2 & Ha2 & Hr2).
    { intros i Hin. rewrite Hp. apply Hall. by apply list_elem_of_further. }
    { by rewrite Hp. }
    exists w2, (t1 ++ t2).
    unfold indicator_calls, artifact_calls, renders in *.
    rewrite !omap_app, Hi, Hi2, Ha, Ha2, Hr, Hr2.
    repeat split; try done. by eapply extends_trace_trans.
Qed.

Lemma get_data_loop_effects inds : ∀ data w,
  ∃ t, extends_trace w (get_data_loop inds data w).2 t ∧
       indicator_calls t `prefix_of` inds ∧
       artifact_calls t = [] ∧ renders t = [] ∧ run_fetches t = [] ∧
       ((∃ m, (get_data_loop inds data w).1 = Ok m) →
        indicator_calls t = inds).
Proof.
  induction inds as [|ind rest IH]; intros data w; simpl.
  - exists []. split; [apply extends_trace_refl|]. by repeat split.
  - unfold bind, lift.
    destruct (cache_get_indicator_data_spec ind w)
      as (w1 & t1 & -> & _ & Htr & Hi & Ha & Hr & Hf).
    destruct (subscript_0_5 (series_payload w ind)) as [s|e].
    + destruct (IH (<[key ind := s]> data) w1)
        as (t2 & Htr2 & Hi2 & Ha2 & Hr2 & Hf2 & Hok).
      exists (t1 ++ t2).
      unfold indicator_calls, artifact_calls, renders, run_fetches in *.
      rewrite !omap_app, Hi, Ha, Hr, Hf, Ha2, Hr2, Hf2. simpl.
      split; [by eapply extends_trace_trans|].
      split; [by apply prefix_cons|]. do 3 (split; [done|]).
      intros Hm. by rewrite Hok.
    + exists t1. simpl. split; [done|]. rewrite Hi.
      split; [apply (prefix_app [ind] [] rest), prefix_nil|].
      do 3 (split; [done|]). by intros [m ?].
Qed.

(** X4: [get_data] returns a mapping if and only if every indicator of the
    collection has a payload with at least six columns (for payloads whose
    rows all have the declared width); an absent payload or a narrower array
    makes it raise. *)
Theorem get_data_succeeds_iff (c : IndicatorCollection) (w : World) :
  (∀ ind d, ind ∈ _indicators c → series_payload w ind = Some d →
            well_shaped d) →
  (∃ m w', get_data c w = (Ok m, w')) ↔
  (∀ ind, ind ∈ _indicators c →
     ∃ d, series_payload w ind = Some d ∧ 5 < ncols d).
Proof.
  intros Hws. split.
  - intros (m & w' & E). by eapply get_data_loop_Ok_inv.
  - intros Hall.
    destruct (get_data_loop_wide (_indicators c) ∅ w)
      as (m & w' & t & E & _); [|by eauto].
    intros ind Hin. destruct (Hall ind Hin) as (d & Hd & Hc).
    exists d. split; [done|]. split; [done|]. by eapply Hws.
Qed.

(** X5: [get_data] fails at the first indicator, in collection order, whose
    payload cannot be subscripted: with the [TypeError] of subscripting [None]
    if the payload is absent, with an [IndexError] if the array (of at least
    one row) has fewer than six columns.  The cache has then been asked for
    the indicators up to and including that one, and for none after it. *)
Theorem get_data_first_failure (pre post : list Indicator) (bad : Indicator)
    (w : World) :
  (∀ ind, ind ∈ pre →
     ∃ d, series_payload w ind = Some d ∧ has_column_5 d) →
  (series_payload w bad = None ∨
   ∃ d, series_payload w bad = Some d ∧ ncols d ≤ 5 ∧ rows d ≠ []) →
  ∃ e w' t,
    get_data (mkCollection (pre ++ bad :: post)) w = (Raise e, w') ∧
    (series_payload w bad = None →
       e = TypeError "'NoneType' object is not subscriptable") ∧
    (is_Some (series_payload w bad) → ∃ msg, e = IndexError msg) ∧
    extends_trace w w' t ∧ indicator_calls t = pre ++ [bad].
Proof.
  intros Hall Hbad.
  assert (∃ e, subscript_0_5 (series_payload w bad) = Raise e ∧
               (series_payload w bad = None →
                  e = TypeError "'NoneType' object is not subscriptable") ∧
               (is_Some (series_payload w bad) → ∃ msg, e = IndexError msg))
    as (e & He & HT & HI).
  { destruct Hbad as [Hn|(d & Hd & Hc & _)].
    - rewrite Hn. eexists. split; [done|]. split; [done|].
      by intros [? ?].
    - rewrite Hd. destruct (subscript_0_5_narrow d Hc) as (msg & ->).
      eexists. split; [done|]. split; [done|]. eauto. }
  destruct (get_data_loop_first_failure pre bad post e ∅ w Hall He)
    as (w' & t & E & Htr & Hi & _).
  exists e, w', t. by repeat split.
Qed.

(** X6: whatever its outcome, [get_data] calls [get_indicator_data] for a
    prefix of the collection, in collection order (for the whole collection
    when it returns a mapping); it never calls [get_artifact_data] and
    invokes no renderer. *)
Theorem get_data_effects (c : IndicatorCollection) (w : World) :
  ∃ t, extends_trace w (get_data c w).2 t ∧
       indicator_calls t `prefix_of` _indicators c ∧
       artifact_calls t = [] ∧ renders t = [] ∧
       ((∃ m, (get_data c w).1 = Ok m) → indicator_calls t = _indicators c).
Proof.
  destruct (get_data_loop_effects (_indicators c) ∅ w)
    as (t & Ht & Hp & Ha & Hr & _ & Hok).
  exists t. by repeat split.
Qed.

Lemma size_list_to_set_le (l : list string) :
  size (list_to_set l : gset string) ≤ length l.
Proof.
  induction l as [|x l IH].
  - done.
  - rewrite list_to_set_cons, size_union_alt, size_singleton. simpl.
    assert (list_to_set l ∖ {[x]} ⊆ (list_to_set l : gset string)) as Hsub
      by (intros y Hy; by apply elem_of_difference in Hy as [? _]).
    apply subseteq_size in Hsub. lia.
Qed.

Lemma size_list_to_set_NoDup (l : list string) :
  size (list_to_set l : gset string) = length l → NoDup l.
Proof.
  induction l as [|x l IH]; [constructor|].
  rewrite list_to_set_cons. simpl.
  intros Hsize. pose proof (size_list_to_set_le l) as Hle.
  destruct (decide (x ∈ l)) as [Hin|Hnin].
  - exfalso.
    assert ({[x]} ∪ list_to_set l = (list_to_set l : gset string)) as E.
    { apply set_eq. intros y.
      rewrite elem_of_union, elem_of_singleton, elem_of_list_to_set.
      split; [by intros [->|?]|by right]. }
    rewrite E in Hsize. lia.
  - apply NoDup_cons. split; [done|]. apply IH.
    rewrite size_union, size_singleton in Hsize
      by (apply disjoint_singleton_l; by rewrite elem_of_list_to_set).
    lia.
Qed.

(** X7: when [get_data] returns, the keys of the mapping are the keys of the
    indicators; it has at most as many entries as the collection has
    indicators, and exactly as many if and only if no two indicators share a
    key: every key collision loses an entry. *)
Theorem get_data_entries (c : IndicatorCollection) (w : World) :
  (∀ ind, ind ∈ _indicators c →
     ∃ d, series_payload w ind = Some d ∧ has_column_5 d) →
  ∃ m w', get_data c w = (Ok m, w') ∧
    dom m = list_to_set (key <$> _indicators c) ∧
    size m ≤ length (_indicators c) ∧
    (size m = length (_indicators c) ↔ NoDup (key <$> _indicators c)).
Proof.
  intros Hall.
  destruct (get_data_loop_wide (_indicators c) ∅ w Hall)
    as (m & w' & t & E & _ & _ & _ & Hm).
  assert (dom m = list_to_set (key <$> _indicators c)) as Hdom.
  { apply set_eq. intros k.
    rewrite elem_of_dom, elem_of_list_to_set, list_elem_of_fmap.
    specialize (Hm k).
    destruct (last (filter _ (_indicators c))) as [ind|] eqn:El.
    - destruct Hm as (d & a & _ & _ & _ & ->).
      apply last_Some_elem_of, list_elem_of_filter in El as [Hk Hin].
      split; [|by eauto]. intros _. by exists ind.
    - rewrite Hm, lookup_empty. split; [by intros [? ?]|].
      intros (ind & -> & Hin). apply last_None in El.
      exfalso. by eapply (filter_nil_not_elem_of _ _ ind El). }
  exists m, w'. split; [done|]. split; [done|].
  rewrite <- size_dom, Hdom.
  rewrite <- (length_fmap key (_indicators c)).
  split; [apply size_list_to_set_le|]. split.
  - apply size_list_to_set_NoDup.
  - apply size_list_to_set.
Qed.

Lemma filter_key_short (l : list Indicator) (k : string) :
  NoDup (key <$> l) → length (filter (λ i, key i = k) l) ≤ 1.
Proof.
  induction l as [|x l IH]; intros Hnd; [simpl; lia|].
  rewrite fmap_cons in Hnd. apply NoDup_cons in Hnd as [Hx Hnd].
  destruct (decide (key x = k)) as [Hk|Hk].
  - rewrite filter_cons_True by done. rewrite filter_none; [simpl; lia|].
    intros y Hy Hky. apply Hx. rewrite Hk, <- Hky.
    by apply list_elem_of_fmap_2.
  - rewrite filter_cons_False by done. by apply IH.
Qed.

Lemma last_filter_key_perm (l1 l2 : list Indicator) (k : string) :
  l1 ≡ₚ l2 → NoDup (key <$> l1) →
  last (filter (λ i, key i = k) l1) = last (filter (λ i, key i = k) l2).
Proof.
  intros Hperm Hnd.
  assert (filter (λ i, key i = k) l1 ≡ₚ filter (λ i, key i = k) l2) as Hf
    by (by apply filter_Permutation).
  pose proof (filter_key_short l1 k Hnd) as Hlen.
  destruct (filter (λ i, key i = k) l1) as [|a [|? ?]]; simpl in Hlen.
  - by apply Permutation_nil_l in Hf as <-.
  - by apply Permutation_singleton_l in Hf as <-.
  - lia.
Qed.

(** X15: when no two indicators share a key, the mapping [get_data] returns
    does not depend on the order of the collection; the order only matters
    for colliding keys, where the last indicator wins. *)
Theorem get_data_order_irrelevant (inds1 inds2 : list Indicator) (w : World) :
  inds1 ≡ₚ inds2 → NoDup (key <$> inds1) →
  (∀ ind, ind ∈ inds1 →
     ∃ d, series_payload w ind = Some d ∧ has_column_5 d) →
  ∃ m w1 w2, get_data (mkCollection inds1) w = (Ok m, w1) ∧
             get_data (mkCollection inds2) w = (Ok m, w2).
Proof.
  intros Hperm Hnd Hall.
  destruct (get_data_loop_wide inds1 ∅ w Hall)
    as (m1 & w1 & t1 & E1 & _ & _ & _ & Hm1).
  destruct (get_data_loop_wide inds2 ∅ w)
    as (m2 & w2 & t2 & E2 & _ & _ & _ & Hm2).
  { intros ind Hin. apply Hall. by rewrite Hperm. }
  exists m1, w1, w2. split; [done|].
  unfold get_data. simpl. rewrite E2. do 2 f_equal.
  apply map_eq. intros k. specialize (Hm1 k). specialize (Hm2 k).
  rewrite <- (last_filter_key_perm inds1 inds2 k Hperm Hnd) in Hm2.
  destruct (last (filter _ inds1)) as [ind|].
  - destruct Hm1 as (d1 & a1 & Hd1 & Hs1 & _ & ->).
    destruct Hm2 as (d2 & a2 & Hd2 & Hs2 & _ & ->).
    congruence.
  - by rewrite Hm1, Hm2.
Qed.

(** *** Extraction and the validated accessors *)

Lemma omap_nil_iff {A B} (f : A → option B) (l : list A) :
  omap f l = [] ↔ ∀ x, x ∈ l → f x = None.
Proof.
  induction l as [|x l IH]; simpl.
  - split; [|done]. intros _ y Hy. by apply elem_of_nil in Hy.
  - destruct (f x) as [b|] eqn:E.
    + split; [done|]. intros Hall.
      specialize (Hall x (list_elem_of_here _ _)). congruence.
    + rewrite IH. split.
      * intros Hall y Hy. apply elem_of_cons in Hy as [->|Hy]; eauto.
      * intros Hall y Hy. by apply Hall, list_elem_of_further.
Qed.

Lemma omap_length_le {A B} (f : A → option B) (l : list A) :
  length (omap f l) ≤ length l.
Proof. rewrite omap_filter_length. apply length_filter. Qed.

Lemma filter_length_full {A} (P : A → Prop) `{!∀ x, Decision (P x)}
    (l : list A) :
  length (filter P l) = length l ↔ ∀ x, x ∈ l → P x.
Proof.
  induction l as [|x l IH].
  - split; [|done]. intros _ y Hy. by apply elem_of_nil in Hy.
  - pose proof (length_filter P l) as Hle.
    destruct (decide (P x)) as [HP|HP].
    + rewrite filter_cons_True by done. simpl. split.
      * intros Hlen y Hy. apply elem_of_cons in Hy as [->|Hy]; [done|].
        apply IH; [lia|done].
      * intros Hall. f_equal. apply IH. intros y Hy.
        by apply Hall, list_elem_of_further.
    + rewrite filter_cons_False by done. simpl. split; [intros; lia|].
      intros Hall. exfalso. apply HP, Hall, list_elem_of_here.
Qed.

Lemma omap_length_full {A B} (f : A → option B) (l : list A) :
  length (omap f l) = length l ↔ ∀ x, x ∈ l → is_Some (f x).
Proof. rewrite omap_filter_length. apply filter_length_full. Qed.

Lemma _get_series_result c w :
  (_get_series c w).1 =
    Ok (extracted_series w (_indicators c),
        key <$> series_sources w (_indicators c)).
Proof. destruct (_get_series_spec c w) as (w' & t & -> & _). done. Qed.

Lemma _get_artifacts_result c w :
  (_get_artifacts c w).1 =
    Ok (extracted_artifacts w (_indicators c),
        key <$> artifact_sources w (_indicators c)).
Proof. destruct (_get_artifacts_spec c w) as (w' & t & -> & _). done. Qed.

Lemma indicator_data_result c w :
  (indicator_data c w).1 =
    if decide (extracted_series w (_indicators c) = [])
    then Raise (ValueError "No series found")
    else Ok (extracted_series w (_indicators c),
             key <$> series_sources w (_indicators c)).
Proof.
  unfold indicator_data, bind.
  destruct (_get_series_spec c w) as (w' & t & -> & _). simpl.
  by case_decide.
Qed.

Lemma artifact_data_result c w :
  (artifact_data c w).1 =
    if decide (extracted_artifacts w (_indicators c) = [])
    then Raise (ValueError "No series found")
    else Ok (extracted_artifacts w (_indicators c),
             key <$> artifact_sources w (_indicators c)).
Proof.
  unfold artifact_data, bind.
  destruct (_get_artifacts_spec c w) as (w' & t & -> & _). simpl.
  by case_decide.
Qed.

(** X8: extraction follows concatenation: for a collection whose elements
    are [l1] followed by [l2], the extracted series are those of [l1]
    followed by those of [l2], and the names likewise; the same holds for
    artifact extraction. *)
Theorem extraction_app (l1 l2 : list Indicator) (w : World) :
  (∃ s1 n1 s2 n2,
     (_get_series (mkCollection l1) w).1 = Ok (s1, n1) ∧
     (_get_series (mkCollection l2) w).1 = Ok (s2, n2) ∧
     (_get_series (mkCollection (l1 ++ l2)) w).1 = Ok (s1 ++ s2, n1 ++ n2)) ∧
  (∃ s1 n1 s2 n2,
     (_get_artifacts (mkCollection l1) w).1 = Ok (s1, n1) ∧
     (_get_artifacts (mkCollection l2) w).1 = Ok (s2, n2) ∧
     (_get_artifacts (mkCollection (l1 ++ l2)) w).1 =
       Ok (s1 ++ s2, n1 ++ n2)).
Proof.
  split.
  - eexists _, _, _, _. rewrite !_get_series_result. simpl.
    split; [done|]. split; [done|].
    unfold extracted_series, series_sources.
    by rewrite omap_app, filter_app, fmap_app.
  - eexists _, _, _, _. rewrite !_get_artifacts_result. simpl.
    split; [done|]. split; [done|].
    unfold extracted_artifacts, artifact_sources.
    by rewrite omap_app, filter_app, fmap_app.
Qed.

(** X9: series extraction never returns more series than the collection has
    indicators, and returns as many exactly when every indicator has a
    payload. *)
Theorem extraction_count (c : IndicatorCollection) (w : World) :
  ∃ series names,
    (_get_series c w).1 = Ok (series, names) ∧
    length series ≤ length (_indicators c) ∧
    (length series = length (_indicators c) ↔
     ∀ ind, ind ∈ _indicators c → is_Some (series_payload w ind)).
Proof.
  eexists _, _. rewrite _get_series_result. split; [done|].
  split; [apply omap_length_le|apply omap_length_full].
Qed.

(** X10: [indicator_data] raises [ValueError("No series found")] exactly
    when no indicator of the collection has a series payload, so in
    particular for the empty collection; [artifact_data] does the same with
    artifact payloads. *)
Theorem accessors_raise_iff (c : IndicatorCollection) (w : World) :
  ((indicator_data c w).1 = Raise (ValueError "No series found") ↔
   ∀ ind, ind ∈ _indicators c → series_payload w ind = None) ∧
  ((artifact_data c w).1 = Raise (ValueError "No series found") ↔
   ∀ ind, ind ∈ _indicators c → artifact_payload w ind = None).
Proof.
  rewrite indicator_data_result, artifact_data_result.
  unfold extracted_series, extracted_artifacts.
  rewrite <- !omap_nil_iff.
  split; by case_decide.
Qed.

(** *** The renderers' front ends *)

Lemma distribution_outcome c levels alpha height width height_minimap w :
  ∃ w1 t, _get_series c w =
            (Ok (extracted_series w (_indicators c),
                 key <$> series_sources w (_indicators c)), w1) ∧
    extends_trace w w1 t ∧ indicator_calls t = _indicators c ∧
    artifact_calls t = [] ∧ renders t = [] ∧ run_fetches t = [] ∧
    distribution c levels alpha height width height_minimap w =
      if decide (extracted_series w (_indicators c) = [])
      then (Raise (ValueError "No series found"), w1)
      else
        let a := mkDensityArgs (extracted_series w (_indicators c))
                   (key <$> series_sources w (_indicators c))
                   levels alpha width height height_minimap in
        (Ok (render_density_minimap_multiple a), log (RenderDensity a) w1).
Proof.
  destruct (_get_series_spec c w) as (w1 & t & E & _ & Ht & Hi & Ha & Hr & Hf).
  exists w1, t. do 6 (split; [done|]).
  unfold distribution, bind. rewrite E. simpl. by case_decide.
Qed.

Lemma scatter_outcome y x noise height width height_minimap w :
  ∃ w2 t,
    extends_trace w w2 t ∧
    indicator_calls t = _indicators y ++ _indicators x ∧
    artifact_calls t = [] ∧ renders t = [] ∧ run_fetches t = [] ∧
    scatter y x noise height width height_minimap w =
      if decide (length (extracted_series w (_indicators x)) ≠ 1)
      then (Raise (ValueError
                     "There should be exactly one series for x-axis"), w2)
      else if decide (extracted_series w (_indicators y) = [])
      then (Raise (ValueError "No series found"), w2)
      else
        match py_index0 (extracted_series w (_indicators x)),
              py_index0 (key <$> series_sources w (_indicators x)) with
        | Ok x0, Ok x_name =>
            let a := mkScatterArgs (extracted_series w (_indicators y)) x0
                       (key <$> series_sources w (_indicators y)) x_name
                       width height height_minimap noise in
            (Ok (render_scatter a), log (RenderScatter a) w2)
        | Raise e, _ => (Raise e, w2)
        | Ok _, Raise e => (Raise e, w2)
        end.
Proof.
  destruct (_get_series_spec y w)
    as (w1 & t1 & E1 & Hag1 & Ht1 & Hi1 & Ha1 & Hr1 & Hf1).
  destruct (_get_series_spec x w1)
    as (w2 & t2 & E2 & Hag2 & Ht2 & Hi2 & Ha2 & Hr2 & Hf2).
  rewrite (extracted_series_agrees w w1), (series_sources_agrees w w1)
    in E2 by done.
  exists w2, (t1 ++ t2).
  split; [by eapply extends_trace_trans|].
  unfold indicator_calls, artifact_calls, renders, run_fetches in *.
  rewrite !omap_app, Hi1, Hi2, Ha1, Ha2, Hr1, Hr2, Hf1, Hf2.
  do 4 (split; [done|]).
  unfold scatter, bind, lift. rewrite E1, E2. simpl.
  repeat case_decide; done.
Qed.

(** X11: [distribution] fails exactly when [indicator_data] on the same
    collection fails, with the same exception, and otherwise hands the
    renderer exactly the series and names that [indicator_data] returns,
    together with the display parameters it was given. *)
Theorem distribution_via_indicator_data (c : IndicatorCollection)
    (levels alpha height width height_minimap : Num) (w : World) :
  match (indicator_data c w).1 with
  | Ok (series, names) =>
      (distribution c levels alpha height width height_minimap w).1 =
        Ok (render_density_minimap_multiple
              (mkDensityArgs series names levels alpha width height
                             height_minimap))
  | Raise e =>
      (distribution c levels alpha height width height_minimap w).1 = Raise e
  end.
Proof.
  rewrite indicator_data_result.
  destruct (distribution_outcome c levels alpha height width height_minimap w)
    as (w1 & t & _ & _ & _ & _ & _ & _ & ->).
  by case_decide.
Qed.

(** X12: [scatter] returns a chart exactly when [indicator_data] succeeds on
    the y-collection and returns exactly one series for the x-collection; the
    renderer then gets what these two calls return. *)
Theorem scatter_via_indicator_data (y x : IndicatorCollection)
    (noise : option (Num * Num)) (height width height_minimap : Num)
    (w : World) :
  ((∃ ch, (scatter y x noise height width height_minimap w).1 = Ok ch) ↔
   ∃ series names x0 x_name,
     (indicator_data y w).1 = Ok (series, names) ∧
     (indicator_data x w).1 = Ok ([x0], [x_name])) ∧
  (∀ series names x0 x_name,
     (indicator_data y w).1 = Ok (series, names) →
     (indicator_data x w).1 = Ok ([x0], [x_name]) →
     (scatter y x noise height width height_minimap w).1 =
       Ok (render_scatter
             (mkScatterArgs series x0 names x_name width height
                            height_minimap noise))).
Proof.
  rewrite !indicator_data_result.
  destruct (scatter_outcome y x noise height width height_minimap w)
    as (w2 & t & _ & _ & _ & _ & _ & ->).
  set (ys := extracted_series w (_indicators y)).
  set (ns := key <$> series_sources w (_indicators y)).
  set (xs := extracted_series w (_indicators x)).
  assert (length (key <$> series_sources w (_indicators x)) = length xs)
    as Hlen by (rewrite length_fmap; symmetry; apply omap_filter_length).
  set (xns := key <$> series_sources w (_indicators x)) in *.
  assert (∀ series names x0 x_name,
     (if decide (ys = []) then Raise (ValueError "No series found")
      else Ok (ys, ns)) = Ok (series, names) →
     (if decide (xs = []) then Raise (ValueError "No series found")
      else Ok (xs, xns)) = Ok ([x0], [x_name]) →
     ys = series ∧ ns = names ∧ ys ≠ [] ∧ xs = [x0] ∧ xns = [x_name]) as Hinv.
  { intros series names x0 x_name Hy Hx.
    case_decide; [done|]. case_decide; [done|]. by simplify_eq. }
  split; [split|].
  - intros [ch Hch]. case_decide as Hx; [done|]. case_decide as Hy; [done|].
    destruct xs as [|x0 [|? ?]]; try done.
    destruct xns as [|xn [|? ?]]; try done.
    exists ys, ns, x0, xn. split; [done|]. by rewrite decide_False.
  - intros (series & names & x0 & x_name & Hy & Hx).
    destruct (Hinv _ _ _ _ Hy Hx) as (<- & <- & Hne & -> & ->).
    rewrite decide_False by (simpl; lia). rewrite decide_False by done.
    simpl. eauto.
  - intros series names x0 x_name Hy Hx.
    destruct (Hinv _ _ _ _ Hy Hx) as (<- & <- & Hne & -> & ->).
    rewrite decide_False by (simpl; lia). by rewrite decide_False by done.
Qed.

(** X13: whatever their outcome, [distribution] calls [get_indicator_data]
    for every indicator of its collection and [scatter] for every indicator
    of the y-collection and then every indicator of the x-collection, before
    any check is made; neither calls [get_artifact_data], and each invokes a
    renderer at most once. *)
Theorem renderers_effects (c y x : IndicatorCollection)
    (noise : option (Num * Num))
    (levels alpha height width height_minimap : Num) (w : World) :
  (∃ t, extends_trace w
          (distribution c levels alpha height width height_minimap w).2 t ∧
        indicator_calls t = _indicators c ∧ artifact_calls t = [] ∧
        length (renders t) ≤ 1) ∧
  (∃ t, extends_trace w
          (scatter y x noise height width height_minimap w).2 t ∧
        indicator_calls t = _indicators y ++ _indicators x ∧
        artifact_calls t = [] ∧ length (renders t) ≤ 1).
Proof.
  split.
  - destruct (distribution_outcome c levels alpha height width
                height_minimap w)
      as (w1 & t & _ & Ht & Hi & Ha & Hr & Hf & ->).
    case_decide.
    + exists t. simpl. rewrite Hr. repeat split; try done. simpl. lia.
    + exists (t ++ [RenderDensity
                      (mkDensityArgs (extracted_series w (_indicators c))
                         (key <$> series_sources w (_indicators c))
                         levels alpha width height height_minimap)]).
      simpl.
      unfold indicator_calls, artifact_calls, renders in *.
      rewrite !omap_app, Hi, Ha, Hr. simpl. rewrite ?app_nil_r.
      repeat split; try done.
      unfold extends_trace, log in *. simpl. by rewrite Ht, app_assoc.
  - destruct (scatter_outcome y x noise height width height_minimap w)
      as (w2 & t & Ht & Hi & Ha & Hr & Hf & ->).
    assert (extends_trace w w2 t ∧
            indicator_calls t = _indicators y ++ _indicators x ∧
            artifact_calls t = [] ∧ length (renders t) ≤ 1) as Hplain
      by (rewrite Hr; repeat split; try done; simpl; lia).
    repeat case_decide; try (by exists t).
    destruct (py_index0 (extracted_series w (_indicators x))) as [x0|];
      [|by exists t].
    destruct (py_index0 (key <$> series_sources w (_indicators x)))
      as [x_name|]; [|by exists t].
    exists (t ++ [RenderScatter
                    (mkScatterArgs (extracted_series w (_indicators y)) x0
                       (key <$> series_sources w (_indicators y)) x_name
                       width height height_minimap noise)]).
    simpl.
    unfold indicator_calls, artifact_calls, renders in *.
    rewrite !omap_app, Hi, Ha, Hr. simpl. rewrite ?app_nil_r.
    repeat split; try done.
    unfold extends_trace, log in *. simpl. by rewrite Ht, app_assoc.
Qed.

(** X14: [indicator_data] calls [get_indicator_data] for every indicator, in
    collection order, and never [get_artifact_data]; [artifact_data] calls
    [get_artifact_data] for every indicator, in collection order, and never
    [get_indicator_data]; neither invokes a renderer, whether it returns or
    raises. *)
Theorem accessors_effects (c : IndicatorCollection) (w : World) :
  (∃ t, extends_trace w (indicator_data c w).2 t ∧
        indicator_calls t = _indicators c ∧ artifact_calls t = [] ∧
        renders t = []) ∧
  (∃ t, extends_trace w (artifact_data c w).2 t ∧
        artifact_calls t = _indicators c ∧ indicator_calls t = [] ∧
        renders t = []).
Proof.
  split.
  - destruct (_get_series_spec c w) as (w1 & t & E & _ & Ht & Hi & Ha & Hr & Hf).
    exists t. unfold indicator_data, bind. rewrite E. simpl.
    by case_decide.
  - destruct (_get_artifacts_spec c w)
      as (w1 & t & E & _ & Ht & Hi & Ha & Hr & Hf).
    exists t. unfold artifact_data, bind. rewrite E. simpl.
    by case_decide.
Qed.

End Analytics.

(** ** The development at work on the example store *)

Example demo_get_series :
  (_get_series Demo.store_series Demo.loss_and_image (@init_world Z string Z)).1 =
    Ok ([Demo.hist 100], ["train_loss"]).
Proof. vm_compute. reflexivity. Qed.

Example demo_get_data :
  (get_data Demo.store_series Demo.losses_A (@init_world Z string Z)).1 =
    Ok (<["valid_loss" := mkArray 2 [[0; 204]; [1; 214]]%Z]>
          (<["train_loss" := mkArray 2 [[0; 104]; [1; 114]]%Z]> ∅)).
Proof. vm_compute. reflexivity. Qed.

Example demo_scatter :
  (scatter Demo.store_series (λ a, s_names a) Demo.losses_A Demo.only_B
           None 400%Z 800%Z 100%Z (@init_world Z string Z)).1 =
    Ok ["train_loss"; "valid_loss"].
Proof. vm_compute. reflexivity. Qed.

Example demo_scatter_two_x :
  (scatter Demo.store_series (λ a, s_names a) Demo.losses_A
           Demo.train_losses None 400%Z 800%Z 100%Z
           (@init_world Z string Z)).1 =
    Raise (ValueError "There should be exactly one series for x-axis").
Proof. vm_compute. reflexivity. Qed.

Example demo_distribution_empty :
  (distribution Demo.store_series (λ a, d_names a) Demo.only_image
                5%Z 1%Z 400%Z 800%Z 100%Z (@init_world Z string Z)).1 =
    Raise (ValueError "No series found").
Proof. vm_compute. reflexivity. Qed.

Example demo_artifact_data :
  (artifact_data Demo.store_artifact Demo.loss_and_image
                 (@init_world Z string Z)).1 = Ok (["png"], ["image"]).
Proof. vm_compute. reflexivity. Qed.

Example demo_runs_no_uuid :
  (runs Demo.store_indicators [] (@init_world Z string Z)).1 = Ok None.
Proof. reflexivity. Qed.

Example demo_get_run_unknown :
  (get_run Demo.store_indicators "run-Z" (@init_world Z string Z)).1 =
    Raise (LookupError "run-Z").
Proof. vm_compute. reflexivity. Qed.

Example demo_narrow_payload :
  subscript_0_5 (DemoNarrow.store_series "run-A" "lr") =
    Raise (IndexError "index 5 is out of bounds for axis 1 with size 3").
Proof. vm_compute. reflexivity. Qed.

(** The failing input of C1: [train_loss] of run-A has a series, the
    [image] artifact of the same run has none. *)
Lemma C1_witness :
  (∃ w', get_data Demo.store_series Demo.loss_and_image (@init_world Z string Z) =
           (Raise (TypeError "'NoneType' object is not subscriptable"), w')) ∧
  (∃ w', _get_series Demo.store_series Demo.loss_and_image (@init_world Z string Z) =
           (Ok (omap (series_payload Demo.store_series (@init_world Z string Z))
                     (_indicators Demo.loss_and_image),
                key <$> series_sources Demo.store_series (@init_world Z string Z)
                          (_indicators Demo.loss_and_image)), w')).
Proof.
  apply (C1_get_data_absent_payload_raises Demo.store_indicators
           Demo.store_series Demo.store_artifact).
  - exists Demo.image_A. split; [|reflexivity].
    apply list_elem_of_further, list_elem_of_here.
  - intros i d Hin.
    repeat (apply elem_of_cons in Hin as [->|Hin]).
    + vm_compute. intros [= <-]. split; [reflexivity|repeat constructor].
    + vm_compute. discriminate.
    + by apply elem_of_nil in Hin.
Defined.

(** C2 as stated fails: the x-collection resolves to exactly one series, the
    y-collection to none, and [scatter] raises before any renderer call. *)
Lemma C2_counterexample :
  length (extracted_series Demo.store_series (@init_world Z string Z)
            (_indicators Demo.only_B)) = 1 ∧
  (scatter Demo.store_series (λ a, s_names a) Demo.only_image Demo.only_B
           None 400%Z 800%Z 100%Z (@init_world Z string Z)).1 =
    Raise (ValueError "No series found") ∧
  renders (w_trace (scatter Demo.store_series (λ a, s_names a) Demo.only_image
                            Demo.only_B None 400%Z 800%Z 100%Z (@init_world Z string Z)).2) = [].
Proof. vm_compute. repeat split. Qed.

Lemma C5_witness :
  ∃ m w', get_data Demo.store_series Demo.losses_A (@init_world Z string Z) = (Ok m, w') ∧
          ∀ k, is_Some (m !! k) ↔
               ∃ ind, ind ∈ _indicators Demo.losses_A ∧ key ind = k.
Proof.
  destruct (C5_get_data_columns Demo.store_indicators Demo.store_series
              Demo.store_artifact Demo.losses_A (@init_world Z string Z))
    as (m & w' & E & Hdom & _).
  - demo_payloads.
  - exists m, w'. split; [exact E|exact Hdom].
Defined.

Lemma C6_witness :
  ∃ m w' a,
    get_data Demo.store_series Demo.train_losses (@init_world Z string Z) = (Ok m, w') ∧
    subscript_0_5 (series_payload Demo.store_series (@init_world Z string Z) Demo.train_loss_B)
      = Ok a ∧
    m !! "train_loss" = Some a.
Proof.
  apply (C6_get_data_last_wins Demo.store_indicators Demo.store_series
           Demo.store_artifact Demo.train_losses (@init_world Z string Z) "train_loss"
           Demo.train_loss_B).
  - demo_payloads.
  - reflexivity.
Defined.

Lemma C8_witness :
  ∃ w', runs Demo.store_indicators ["run-A"; "run-B"] (@init_world Z string Z) =
          (Ok (Some (mkCollection
                 [Demo.train_loss_A; Demo.valid_loss_A; Demo.image_A;
                  Demo.train_loss_B])), w').
Proof.
  destruct (C8_runs_fold Demo.store_indicators Demo.store_series
              Demo.store_artifact ["run-A"; "run-B"]
              [collection_of [Demo.train_loss_A; Demo.valid_loss_A;
                              Demo.image_A];
               collection_of [Demo.train_loss_B]] (@init_world Z string Z))
    as ((w' & E) & _).
  - repeat constructor.
  - exists w'. exact E.
Defined.

Lemma C9_witness :
  _indicators (__add__ Demo.losses_A Demo.only_B) =
    [Demo.train_loss_A; Demo.valid_loss_A; Demo.train_loss_B] ∧
  length (_indicators (__add__ Demo.losses_A Demo.losses_A)) = 2.
Proof.
  destruct (C9_collection_addition Demo.losses_A Demo.only_B)
    as (E & _ & _ & _ & L).
  - apply (bool_decide_unpack _). vm_compute. exact I.
  - apply (bool_decide_unpack _). vm_compute. exact I.
  - split; [exact E|exact L].
Defined.

(** C10 as stated fails for an identifier the backing store does not know:
    both calls raise, no [Run] is returned or cached, and the store has been
    asked twice. *)
Lemma C10_counterexample :
  (get_run Demo.store_indicators "run-Z" (@init_world Z string Z)).1 =
    Raise (LookupError "run-Z") ∧
  (get_run Demo.store_indicators "run-Z"
     (get_run Demo.store_indicators "run-Z" (@init_world Z string Z)).2).1 =
    Raise (LookupError "run-Z") ∧
  reachable Demo.store_indicators Demo.store_series Demo.store_artifact
    (get_run Demo.store_indicators "run-Z"
       (get_run Demo.store_indicators "run-Z" (@init_world Z string Z)).2).2 ∧
  fetch_count "run-Z"
    (w_trace
       (get_run Demo.store_indicators "run-Z"
          (get_run Demo.store_indicators "run-Z"
             (@init_world Z string Z)).2).2) = 2.
Proof.
  split; [vm_compute; reflexivity|]. split; [vm_compute; reflexivity|].
  split; [|vm_compute; reflexivity].
  unfold get_run. apply reach_get_run, reach_get_run, reach_refl.
Qed.

Lemma C10_witness :
  ∃ r w1, get_run Demo.store_indicators "run-A" (@init_world Z string Z) = (Ok r, w1) ∧
          get_run Demo.store_indicators "run-A" w1 = (Ok r, w1).
Proof.
  destruct (C10_get_run_identity_stable Demo.store_indicators
              Demo.store_series Demo.store_artifact "run-A" (@init_world Z string Z))
    as (r & w1 & E1 & _ & E2 & _).
  - vm_compute. eauto.
  - constructor.
  - exists r, w1. split; [exact E1|exact E2].
Defined.

(** ** The further properties on the example store *)

Lemma runs_stops_at_first_failure_witness :
  (runs Demo.store_indicators ["run-A"; "run-Z"; "run-B"]
        (@init_world Z string Z)).1 = Raise (LookupError "run-Z").
Proof.
  pose proof (runs_stops_at_first_failure Demo.store_indicators
             ["run-A"] ["run-B"] "run-Z" (@init_world Z string Z)
             (runs Demo.store_indicators ["run-A"] init_world).2
             (cache_get_run Demo.store_indicators "run-Z"
                (runs Demo.store_indicators ["run-A"] init_world).2).2
             (Some (collection_of [Demo.train_loss_A; Demo.valid_loss_A;
                                   Demo.image_A]))
             (LookupError "run-Z")) as H.
  cbn [app] in H. rewrite H.
  - reflexivity.
  - vm_compute. reflexivity.
  - vm_compute. reflexivity.
Defined.

Lemma get_data_succeeds_iff_witness :
  ∃ m w', get_data Demo.store_series Demo.losses_A (@init_world Z string Z) =
            (Ok m, w').
Proof.
  apply (get_data_succeeds_iff Demo.store_indicators Demo.store_series
           Demo.store_artifact Demo.losses_A init_world).
  - intros i d Hin.
    repeat (apply elem_of_cons in Hin as [->|Hin]);
      [vm_compute; intros [= <-]; repeat constructor ..
      |by apply elem_of_nil in Hin].
  - intros i Hin.
    repeat (apply elem_of_cons in Hin as [->|Hin]);
      [eexists; split; [vm_compute; reflexivity|simpl; lia] ..
      |by apply elem_of_nil in Hin].
Defined.

Lemma get_data_first_failure_witness :
  ∃ msg w' t,
    get_data DemoNarrow.store_series
      (mkCollection [Demo.train_loss_A; DemoNarrow.lr_A; Demo.train_loss_B])
      (@init_world Z string Z) = (Raise (IndexError msg), w') ∧
    extends_trace init_world w' t ∧
    indicator_calls t = [Demo.train_loss_A; DemoNarrow.lr_A].
Proof.
  destruct (get_data_first_failure Demo.store_indicators
              DemoNarrow.store_series Demo.store_artifact
              [Demo.train_loss_A] [Demo.train_loss_B] DemoNarrow.lr_A
              (@init_world Z string Z))
    as (e & w' & t & E & _ & HI & Htr & Hi).
  - demo_wide.
  - right. eexists. split; [vm_compute; reflexivity|].
    split; [simpl; lia|discriminate].
  - destruct HI as [msg ->]; [vm_compute; eauto|].
    exists msg, w', t. split; [exact E|]. split; [exact Htr|exact Hi].
Defined.

Lemma get_data_entries_witness :
  ∃ m w', get_data Demo.store_series Demo.train_losses
            (@init_world Z string Z) = (Ok m, w') ∧
          size m ≤ 2 ∧
          (size m = 2 ↔ NoDup ["train_loss"; "train_loss"]).
Proof.
  destruct (get_data_entries Demo.store_indicators Demo.store_series
              Demo.store_artifact Demo.train_losses
              (@init_world Z string Z))
    as (m & w' & E & _ & Hle & Hiff).
  - demo_wide.
  - exists m, w'. split; [exact E|]. split; [exact Hle|exact Hiff].
Defined.

Lemma get_data_order_irrelevant_witness :
  ∃ m w1 w2,
    get_data Demo.store_series
      (mkCollection [Demo.train_loss_A; Demo.valid_loss_A])
      (@init_world Z string Z) = (Ok m, w1) ∧
    get_data Demo.store_series
      (mkCollection [Demo.valid_loss_A; Demo.train_loss_A])
      (@init_world Z string Z) = (Ok m, w2).
Proof.
  apply (get_data_order_irrelevant Demo.store_indicators Demo.store_series
           Demo.store_artifact).
  - apply perm_swap.
  - apply (bool_decide_unpack _). vm_compute. exact I.
  - demo_wide.
Defined.
